(** * python_service: the WhatsApp call webhook, embedded and verified

    The development follows [python-agent/python_service.py].  In the
    repository the whole module text sits between a pair of triple quotes;
    what is embedded here is the program that text spells out:
    [generate_tts], [handle_call], the [iceconnectionstatechange] closure
    defined inside [handle_call], and [handle_req].

    Third-party collaborators (the text-to-speech client, the aiortc peer
    connection, [requests.post], the file system) are not part of the
    repository: their answers are supplied by an [Env] record of oracles,
    each of which either returns or raises.  Everything the module itself
    does -- field accesses, the order of calls, what is posted, what is
    registered, what is returned -- is written out. *)

From Stdlib Require Import ZArith.
From stdpp Require Import base strings list.

Set Warnings "-register-all".

Open Scope Z_scope.
Open Scope string_scope.
Open Scope list_scope.

(** ** Python values and exceptions *)

(** What [json.loads] can produce.  A dict is kept as an association list
    looked up from the front. *)
Inductive json : Type :=
| JNull
| JBool (b : bool)
| JInt (n : Z)
| JFloat (repr : string)
| JStr (s : string)
| JList (l : list json)
| JDict (d : list (string * json)).

Inductive exn : Type :=
| KeyError (k : string)
| TypeError
| AttributeError
| JSONDecodeError
| OSError
| SynthesisError
| MediaError
| NegotiationError
| ConnectionError (detail : string).

(** Outcome of a Python call: a value, or a raised exception. *)
Inductive result (A : Type) : Type :=
| Ok (a : A)
| Raise (e : exn).
Arguments Ok {A} a.
Arguments Raise {A} e.

Definition is_raise {A} (r : result A) : bool :=
  match r with Ok _ => false | Raise _ => true end.

Fixpoint dict_get (d : list (string * json)) (k : string) : option json :=
  match d with
  | [] => None
  | (k', v) :: d' => if String.eqb k' k then Some v else dict_get d' k
  end.

(** [v[k]] for a string key [k]: only a dict can be subscripted by a string;
    a missing key is a [KeyError], any other value a [TypeError]. *)
Definition getitem (v : json) (k : string) : result json :=
  match v with
  | JDict d =>
      match dict_get d k with
      | Some x => Ok x
      | None => Raise (KeyError k)
      end
  | _ => Raise TypeError
  end.

(** [v == s] for a string literal [s]. *)
Definition eq_str (v : json) (s : string) : bool :=
  match v with
  | JStr s' => String.eqb s' s
  | _ => false
  end.

(** How an f-string renders the value of [os.getenv]: an unset variable is
    [None] and prints as the text None. *)
Definition fstr (v : option string) : string :=
  match v with
  | Some s => s
  | None => "None"
  end.

(** ** Data of the module *)

Record Response : Type := mkResponse { status : Z; text : string }.

(** [web.Response(text=t)]: the status defaults to 200. *)
Definition web_Response (t : string) : Response :=
  {| status := 200; text := t |}.

Record HttpRequest : Type := mkHttpRequest {
  method : string;
  url : string;
  headers : list (string * string);
  json_body : json
}.

Record SynthesisRequest : Type := mkSynthesisRequest {
  input_text : string;
  language_code : string;
  ssml_gender : string;
  audio_encoding : string
}.

Record RTCSessionDescription : Type := mkDescription {
  sdp : json;
  type : string
}.

(** The closure [_] that [handle_call] attaches to the peer connection: it
    captures [call_id] (and the connection it is attached to). *)
Record Listener : Type := mkListener {
  l_event : string;
  l_call_id : json
}.

Record PeerConnection : Type := mkPeerConnection {
  tracks : list string;
  remoteDescription : option RTCSessionDescription;
  localDescription : option RTCSessionDescription;
  iceConnectionState : string;
  listeners : list Listener
}.

(** A coroutine handed to [asyncio.create_task] and not yet started. *)
Inductive Task : Type :=
| TaskHandleCall (data : json).

(** What the process does to the outside, in the order it happens. *)
Inductive Effect : Type :=
| ESynthesize (r : SynthesisRequest)
| EWriteFile (path : string) (content : string)
| EPost (p : HttpRequest) (r : result Z)
| EResponse (r : result Response)
| ETaskDone (r : result Response).

(** The process: the peer connections created so far (a reference is an
    index), the tasks scheduled on the event loop, and the effect history. *)
Record World : Type := mkWorld {
  pcs : list PeerConnection;
  ready : list Task;
  log : list Effect
}.

(** The collaborators.  [post] is also given the length of the history, so
    that two posts of one request may fare differently. *)
Record Env : Type := mkEnv {
  WHATSAPP_TOKEN : option string;
  PHONE_NUMBER_ID : option string;
  tts_client : result unit;
  synthesize_speech : SynthesisRequest -> result string;
  write_file : string -> string -> result unit;
  media_player : string -> result string;
  add_track : string -> result unit;
  set_remote_description : RTCSessionDescription -> result unit;
  create_answer : RTCSessionDescription -> result RTCSessionDescription;
  set_local_description : RTCSessionDescription -> result RTCSessionDescription;
  post : nat -> HttpRequest -> result Z
}.

Definition GRAPH : string := "https://graph.facebook.com/v20.0".

(** ** The monad: state passing with exceptions *)

Definition M (A : Type) : Type := World -> result A * World.

Definition ret {A} (a : A) : M A := fun w => (Ok a, w).

Definition raise {A} (e : exn) : M A := fun w => (Raise e, w).

Definition bind {A B} (m : M A) (k : A -> M B) : M B :=
  fun w =>
    match m w with
    | (Ok a, w') => k a w'
    | (Raise e, w') => (Raise e, w')
    end.

Definition lift {A} (r : result A) : M A := fun w => (r, w).

Notation "x <- m ;; k" := (bind m (fun x => k))
  (at level 100, m at next level, right associativity).
Notation "m ;;; k" := (bind m (fun _ => k))
  (at level 100, right associativity).

Definition emit (e : Effect) : M unit :=
  fun w => (Ok tt, {| pcs := pcs w; ready := ready w; log := log w ++ [e] |}).

(** ** Peer connections in the store *)

Definition new_pc : PeerConnection :=
  {| tracks := []; remoteDescription := None; localDescription := None;
     iceConnectionState := "new"; listeners := [] |}.

(** [RTCPeerConnection()] *)
Definition RTCPeerConnection : M nat :=
  fun w => (Ok (length (pcs w)),
            {| pcs := pcs w ++ [new_pc]; ready := ready w; log := log w |}).

Definition pc_read (r : nat) : M PeerConnection :=
  fun w =>
    match pcs w !! r with
    | Some pc => (Ok pc, w)
    | None => (Raise AttributeError, w)
    end.

Definition pc_update (r : nat) (f : PeerConnection -> PeerConnection) : M unit :=
  fun w => (Ok tt, {| pcs := alter f r (pcs w); ready := ready w; log := log w |}).

Definition with_track (t : string) (pc : PeerConnection) : PeerConnection :=
  {| tracks := tracks pc ++ [t]; remoteDescription := remoteDescription pc;
     localDescription := localDescription pc;
     iceConnectionState := iceConnectionState pc; listeners := listeners pc |}.

Definition with_remote (d : RTCSessionDescription) (pc : PeerConnection) : PeerConnection :=
  {| tracks := tracks pc; remoteDescription := Some d;
     localDescription := localDescription pc;
     iceConnectionState := iceConnectionState pc; listeners := listeners pc |}.

Definition with_local (d : RTCSessionDescription) (pc : PeerConnection) : PeerConnection :=
  {| tracks := tracks pc; remoteDescription := remoteDescription pc;
     localDescription := Some d;
     iceConnectionState := iceConnectionState pc; listeners := listeners pc |}.

Definition with_ice (s : string) (pc : PeerConnection) : PeerConnection :=
  {| tracks := tracks pc; remoteDescription := remoteDescription pc;
     localDescription := localDescription pc;
     iceConnectionState := s; listeners := listeners pc |}.

Definition with_listener (l : Listener) (pc : PeerConnection) : PeerConnection :=
  {| tracks := tracks pc; remoteDescription := remoteDescription pc;
     localDescription := localDescription pc;
     iceConnectionState := iceConnectionState pc; listeners := listeners pc ++ [l] |}.

(** [pc.addTrack(t)] *)
Definition addTrack (env : Env) (r : nat) (t : string) : M unit :=
  lift (add_track env t) ;;; pc_update r (with_track t).

(** [await pc.setRemoteDescription(d)] *)
Definition setRemoteDescription (env : Env) (r : nat) (d : RTCSessionDescription) : M unit :=
  lift (set_remote_description env d) ;;; pc_update r (with_remote d).

(** [await pc.createAnswer()]: the answer is made for the remote description
    the connection holds. *)
Definition createAnswer (env : Env) (r : nat) : M RTCSessionDescription :=
  pc <- pc_read r ;;
  match remoteDescription pc with
  | Some offer => lift (create_answer env offer)
  | None => raise NegotiationError
  end.

(** [await pc.setLocalDescription(answer)]: the connection then holds the
    description the library settled on. *)
Definition setLocalDescription (env : Env) (r : nat) (answer : RTCSessionDescription) : M unit :=
  d <- lift (set_local_description env answer) ;;
  pc_update r (with_local d).

(** [pc.localDescription.sdp] *)
Definition localDescription_sdp (r : nat) : M json :=
  pc <- pc_read r ;;
  match localDescription pc with
  | Some d => ret (sdp d)
  | None => raise AttributeError
  end.

(** [pc.on(event)(handler)] *)
Definition pc_on (r : nat) (l : Listener) : M unit :=
  pc_update r (with_listener l).

(** ** generate_tts *)

Definition greeting : string :=
  "Welcome to Avasar, the citizen driven platform. I am bot agent Santosh. How can I help you today?".

Definition greeting_request : SynthesisRequest :=
  {| input_text := greeting; language_code := "en-US";
     ssml_gender := "NEUTRAL"; audio_encoding := "LINEAR16" |}.

Definition generate_tts (env : Env) : M string :=
  let text := greeting in
  lift (tts_client env) ;;;
  let req := {| input_text := text; language_code := "en-US";
                ssml_gender := "NEUTRAL"; audio_encoding := "LINEAR16" |} in
  emit (ESynthesize req) ;;;
  audio_content <- lift (synthesize_speech env req) ;;
  let path := "/tmp/welcome.wav" in
  lift (write_file env path audio_content) ;;;
  emit (EWriteFile path audio_content) ;;;
  ret path.

(** ** Outbound signaling *)

(** [requests.post(url, headers=..., json=...)]: returns the status code of
    whatever answer came back, or raises when no answer came. *)
Definition requests_post (env : Env) (u : string) (h : list (string * string))
    (body : json) : M Z :=
  fun w =>
    let p := {| method := "POST"; url := u; headers := h; json_body := body |} in
    let r := post env (length (log w)) p in
    (r, {| pcs := pcs w; ready := ready w; log := log w ++ [EPost p r] |}).

Definition calls_url (env : Env) : string :=
  GRAPH +:+ "/" +:+ fstr (PHONE_NUMBER_ID env) +:+ "/calls".

Definition auth_headers (env : Env) : list (string * string) :=
  [("Authorization", "Bearer " +:+ fstr (WHATSAPP_TOKEN env))].

Definition signaling_body (call_id : json) (action : string) (local_sdp : json) : json :=
  JDict [("messaging_product", JStr "whatsapp");
         ("call_id", call_id);
         ("action", JStr action);
         ("session", JDict [("sdp_type", JStr "answer"); ("sdp", local_sdp)])].

(** ** handle_call and its closure *)

Definition ICE_EVENT : string := "iceconnectionstatechange".

(** The body of the closure [_], run for the connection [pc] it was
    attached to. *)
Definition on_iceconnectionstatechange (env : Env) (pc : nat) (call_id : json) : M unit :=
  c <- pc_read pc ;;
  if String.eqb (iceConnectionState c) "connected" then
    local_sdp <- localDescription_sdp pc ;;
    requests_post env (calls_url env) (auth_headers env)
      (signaling_body call_id "accept" local_sdp) ;;;
    ret tt
  else ret tt.

Definition handle_call (env : Env) (call : json) : M Response :=
  call_id <- lift (getitem call "id") ;;
  event <- lift (getitem call "event") ;;
  if negb (eq_str event "connect") then ret (web_Response "ignored") else
  session <- lift (getitem call "session") ;;
  offer_sdp <- lift (getitem session "sdp") ;;
  pc <- RTCPeerConnection ;;
  wav <- generate_tts env ;;
  player_audio <- lift (media_player env wav) ;;
  addTrack env pc player_audio ;;;
  setRemoteDescription env pc {| sdp := offer_sdp; type := "offer" |} ;;;
  answer <- createAnswer env pc ;;
  setLocalDescription env pc answer ;;;
  local_sdp <- localDescription_sdp pc ;;
  requests_post env (calls_url env) (auth_headers env)
    (signaling_body call_id "pre_accept" local_sdp) ;;;
  pc_on pc {| l_event := ICE_EVENT; l_call_id := call_id |} ;;;
  ret (web_Response "TTS sent").

(** ** The library side of a connectivity change *)

(** Running one listener: an exception raised by the closure stays in the
    future the emitter wrapped it in; the world keeps what was done. *)
Definition run_listener (env : Env) (pc : nat) (ev : string) (l : Listener) (w : World) : World :=
  if String.eqb (l_event l) ev
  then snd (on_iceconnectionstatechange env pc (l_call_id l) w)
  else w.

(** The connection [pc] moves to ICE state [s] and emits
    [iceconnectionstatechange] to the listeners it has at that moment.  Each
    closure is taken to run while [s] is still the current state. *)
Definition ice_change (env : Env) (pc : nat) (s : string) (w : World) : World :=
  let w1 := snd (pc_update pc (with_ice s) w) in
  match pcs w1 !! pc with
  | Some c => fold_left (fun w' l => run_listener env pc ICE_EVENT l w') (listeners c) w1
  | None => w1
  end.

Definition ice_changes (env : Env) (pc : nat) (ss : list string) (w : World) : World :=
  fold_left (fun w' s => ice_change env pc s w') ss w.

(** ** handle_req and the event loop *)

Record Request : Type := mkRequest {
  req_json : result json
}.

(** [asyncio.create_task(coro)]: the coroutine is scheduled, not run. *)
Definition create_task (t : Task) : M unit :=
  fun w => (Ok tt, {| pcs := pcs w; ready := ready w ++ [t]; log := log w |}).

Definition handle_req (req : Request) : M Response :=
  data <- lift (req_json req) ;;
  create_task (TaskHandleCall data) ;;;
  ret (web_Response "OK").

(** One scheduled task run to its end; its result goes nowhere but the
    task object. *)
Definition run_task (env : Env) (t : Task) (w : World) : World :=
  match t with
  | TaskHandleCall data =>
      let '(r, w') := handle_call env data w in
      snd (emit (ETaskDone r) w')
  end.

Definition run_ready (env : Env) (w : World) : World :=
  fold_left (fun w' t => run_task env t w')
    (ready w) {| pcs := pcs w; ready := []; log := log w |}.

(** One request served: the handler runs to its [return] (nothing yields
    between [create_task] and [return]), the framework takes the response,
    and only then does the loop get to the scheduled tasks. *)
Definition serve (env : Env) (req : Request) (w : World) : World :=
  let '(r, w1) := handle_req req w in
  run_ready env (snd (emit (EResponse r) w1)).

(** A whole call: the coordinator run, then the connectivity changes [ss] of
    the connection that run created.  The closure is attached by the last
    statement of [handle_call] and nothing yields after the last [await], so
    a change that happens while the run is still under way meets no listener
    of this module; the changes that can post anything are those after the
    run has returned. *)
Definition session (env : Env) (call : json) (ss : list string) (w : World) : World :=
  ice_changes env (length (pcs w)) ss (snd (handle_call env call w)).

(** ** Observations on the history *)

Definition action_of (p : HttpRequest) : option json :=
  match json_body p with
  | JDict d => dict_get d "action"
  | _ => None
  end.

Definition call_id_of (p : HttpRequest) : option json :=
  match json_body p with
  | JDict d => dict_get d "call_id"
  | _ => None
  end.

Definition has_action (a : string) (p : HttpRequest) : bool :=
  match action_of p with
  | Some v => eq_str v a
  | None => false
  end.

Fixpoint posts (l : list Effect) : list HttpRequest :=
  match l with
  | [] => []
  | EPost p _ :: l' => p :: posts l'
  | _ :: l' => posts l'
  end.

Definition sent (a : string) (l : list Effect) : nat :=
  length (filter (fun p => has_action a p = true) (posts l)).

Definition W0 : World := {| pcs := []; ready := []; log := [] |}.

(** ** Concrete inputs used to exercise the definitions *)

Definition call0 : json :=
  JDict [("id", JStr "C1"); ("event", JStr "connect");
         ("session", JDict [("sdp", JStr "OFFER_X")])].

Definition ringing0 : json :=
  JDict [("id", JStr "C1"); ("event", JStr "ringing");
         ("session", JDict [("sdp", JStr "OFFER_X")])].

Definition answer_y : RTCSessionDescription :=
  {| sdp := JStr "ANSWER_Y"; type := "answer" |}.

(** Every collaborator answers; the platform replies 200. *)
Definition env_ok : Env :=
  {| WHATSAPP_TOKEN := Some "TOKEN"; PHONE_NUMBER_ID := Some "12345";
     tts_client := Ok tt;
     synthesize_speech := fun _ => Ok "RIFF";
     write_file := fun _ _ => Ok tt;
     media_player := fun _ => Ok "audio";
     add_track := fun _ => Ok tt;
     set_remote_description := fun _ => Ok tt;
     create_answer := fun _ => Ok answer_y;
     set_local_description := fun d => Ok d;
     post := fun _ _ => Ok 200 |}.

(** As [env_ok], but the platform cannot be reached. *)
Definition env_unreachable : Env :=
  {| WHATSAPP_TOKEN := Some "TOKEN"; PHONE_NUMBER_ID := Some "12345";
     tts_client := Ok tt;
     synthesize_speech := fun _ => Ok "RIFF";
     write_file := fun _ _ => Ok tt;
     media_player := fun _ => Ok "audio";
     add_track := fun _ => Ok tt;
     set_remote_description := fun _ => Ok tt;
     create_answer := fun _ => Ok answer_y;
     set_local_description := fun d => Ok d;
     post := fun _ _ => Raise (ConnectionError "unreachable") |}.

(** As [env_ok], but the platform replies 401 to every post. *)
Definition env_rejected : Env :=
  {| WHATSAPP_TOKEN := None; PHONE_NUMBER_ID := Some "12345";
     tts_client := Ok tt;
     synthesize_speech := fun _ => Ok "RIFF";
     write_file := fun _ _ => Ok tt;
     media_player := fun _ => Ok "audio";
     add_track := fun _ => Ok tt;
     set_remote_description := fun _ => Ok tt;
     create_answer := fun _ => Ok answer_y;
     set_local_description := fun d => Ok d;
     post := fun _ _ => Ok 401 |}.

(** As [env_ok], but the offer cannot be answered. *)
Definition env_bad_offer : Env :=
  {| WHATSAPP_TOKEN := Some "TOKEN"; PHONE_NUMBER_ID := Some "12345";
     tts_client := Ok tt;
     synthesize_speech := fun _ => Ok "RIFF";
     write_file := fun _ _ => Ok tt;
     media_player := fun _ => Ok "audio";
     add_track := fun _ => Ok tt;
     set_remote_description := fun _ => Ok tt;
     create_answer := fun _ => Raise NegotiationError;
     set_local_description := fun d => Ok d;
     post := fun _ _ => Ok 200 |}.

(** As [env_ok], with neither environment variable set. *)
Definition env_unconfigured : Env :=
  {| WHATSAPP_TOKEN := None; PHONE_NUMBER_ID := None;
     tts_client := Ok tt;
     synthesize_speech := fun _ => Ok "RIFF";
     write_file := fun _ _ => Ok tt;
     media_player := fun _ => Ok "audio";
     add_track := fun _ => Ok tt;
     set_remote_description := fun _ => Ok tt;
     create_answer := fun _ => Ok answer_y;
     set_local_description := fun d => Ok d;
     post := fun _ _ => Ok 200 |}.

(** As [env_ok], but speech synthesis fails. *)
Definition env_no_tts : Env :=
  {| WHATSAPP_TOKEN := Some "TOKEN"; PHONE_NUMBER_ID := Some "12345";
     tts_client := Ok tt;
     synthesize_speech := fun _ => Raise SynthesisError;
     write_file := fun _ _ => Ok tt;
     media_player := fun _ => Ok "audio";
     add_track := fun _ => Ok tt;
     set_remote_description := fun _ => Ok tt;
     create_answer := fun _ => Ok answer_y;
     set_local_description := fun d => Ok d;
     post := fun _ _ => Ok 200 |}.

(** ** Vocabulary of the statements *)

(** [call["session"]["sdp"]] *)
Definition session_sdp (data : json) : result json :=
  match getitem data "session" with
  | Ok s => getitem s "sdp"
  | Raise e => Raise e
  end.

(** The payload carries [id], [event] and [session.sdp]. *)
Definition structurally_valid (data : json) : bool :=
  negb (is_raise (getitem data "id"))
  && negb (is_raise (getitem data "event"))
  && negb (is_raise (session_sdp data)).

(** The payload is a connect event for call [cid] with offer [offer_sdp]. *)
Definition connect_event (call cid offer_sdp : json) : Prop :=
  getitem call "id" = Ok cid /\
  getitem call "event" = Ok (JStr "connect") /\
  session_sdp call = Ok offer_sdp.

Definition offer_of (offer_sdp : json) : RTCSessionDescription :=
  {| sdp := offer_sdp; type := "offer" |}.

(** Speech synthesis delivers [audio] and it is stored. *)
Definition synthesis_ok (env : Env) (audio : string) : Prop :=
  tts_client env = Ok tt /\
  synthesize_speech env greeting_request = Ok audio /\
  write_file env "/tmp/welcome.wav" audio = Ok tt.

Definition synthesis_fails (env : Env) : Prop :=
  is_raise (tts_client env) = true \/
  is_raise (synthesize_speech env greeting_request) = true.

(** The greeting is attached as [track]. *)
Definition playback_ok (env : Env) (track : string) : Prop :=
  media_player env "/tmp/welcome.wav" = Ok track /\
  add_track env track = Ok tt.

(** The three negotiation steps succeed and leave [d] as local description. *)
Definition negotiation_ok (env : Env) (offer_sdp : json) (d : RTCSessionDescription) : Prop :=
  set_remote_description env (offer_of offer_sdp) = Ok tt /\
  exists answer,
    create_answer env (offer_of offer_sdp) = Ok answer /\
    set_local_description env answer = Ok d.

(** One of the three negotiation steps raises. *)
Definition negotiation_fails (env : Env) (offer_sdp : json) : Prop :=
  is_raise (set_remote_description env (offer_of offer_sdp)) = true \/
  is_raise (create_answer env (offer_of offer_sdp)) = true \/
  exists answer,
    create_answer env (offer_of offer_sdp) = Ok answer /\
    is_raise (set_local_description env answer) = true.

(** The connection as [handle_call] leaves it once negotiation is through. *)
Definition negotiated_pc (track : string) (offer_sdp : json)
    (d : RTCSessionDescription) (ls : list Listener) : PeerConnection :=
  {| tracks := [track]; remoteDescription := Some (offer_of offer_sdp);
     localDescription := Some d; iceConnectionState := "new"; listeners := ls |}.

Definition watch (cid : json) : Listener :=
  {| l_event := ICE_EVENT; l_call_id := cid |}.

Definition signaling_request (env : Env) (cid : json) (action : string)
    (local_sdp : json) : HttpRequest :=
  {| method := "POST"; url := calls_url env; headers := auth_headers env;
     json_body := signaling_body cid action local_sdp |}.

Definition tts_effects (audio : string) : list Effect :=
  [ESynthesize greeting_request; EWriteFile "/tmp/welcome.wav" audio].

(** The spec's SignalingError: no reply at all, or a reply outside 2xx. *)
Definition signaling_failed (r : result Z) : bool :=
  match r with
  | Ok k => negb ((200 <=? k)%Z && (k <? 300)%Z)
  | Raise _ => true
  end.

(** In a stretch of history, every accept comes after a pre-accept for the
    same call that the platform answered. *)
Definition accept_follows_pre_accept (l : list Effect) : Prop :=
  forall l1 p r l2,
    l = l1 ++ EPost p r :: l2 ->
    has_action "accept" p = true ->
    exists p0 k,
      In (EPost p0 (Ok k)) l1 /\
      has_action "pre_accept" p0 = true /\
      call_id_of p0 = call_id_of p.

Definition is_lookup_error (e : exn) : Prop :=
  e = TypeError \/ exists k, e = KeyError k.

Definition connected_count (ss : list string) : nat :=
  length (filter (fun s => s = "connected") ss).

(** How a run of [handle_call] can leave the world: nothing touched (the
    field reads failed or the event was not connect); aborted between the
    creation of the connection and the first post; pre-accept posted but no
    reply came; pre-accept answered and the watch registered. *)
Inductive run_shape (env : Env) (call : json) (w : World) :
    result Response -> World -> Prop :=
| run_early (r : result Response) :
    (forall cid offer_sdp, ~ connect_event call cid offer_sdp) ->
    (r = Ok (web_Response "ignored") \/ exists e, r = Raise e /\ is_lookup_error e) ->
    run_shape env call w r w
| run_aborted (e : exn) (c : PeerConnection) (pre : list Effect) :
    listeners c = [] ->
    posts pre = [] ->
    run_shape env call w (Raise e)
      {| pcs := pcs w ++ [c]; ready := ready w; log := log w ++ pre |}
| run_unanswered (cid offer_sdp : json) (audio track : string)
    (d : RTCSessionDescription) (e : exn) :
    connect_event call cid offer_sdp ->
    synthesis_ok env audio ->
    playback_ok env track ->
    negotiation_ok env offer_sdp d ->
    post env (length (log w ++ tts_effects audio))
      (signaling_request env cid "pre_accept" (sdp d)) = Raise e ->
    run_shape env call w (Raise e)
      {| pcs := pcs w ++ [negotiated_pc track offer_sdp d []];
         ready := ready w;
         log := log w ++ tts_effects audio ++
                [EPost (signaling_request env cid "pre_accept" (sdp d)) (Raise e)] |}
| run_watching (cid offer_sdp : json) (audio track : string)
    (d : RTCSessionDescription) (k : Z) :
    connect_event call cid offer_sdp ->
    synthesis_ok env audio ->
    playback_ok env track ->
    negotiation_ok env offer_sdp d ->
    post env (length (log w ++ tts_effects audio))
      (signaling_request env cid "pre_accept" (sdp d)) = Ok k ->
    run_shape env call w (Ok (web_Response "TTS sent"))
      {| pcs := pcs w ++ [negotiated_pc track offer_sdp d [watch cid]];
         ready := ready w;
         log := log w ++ tts_effects audio ++
                [EPost (signaling_request env cid "pre_accept" (sdp d)) (Ok k)] |}.

Definition is_accept_of (env : Env) (cid : json) (d : RTCSessionDescription)
    (e : Effect) : Prop :=
  exists r, e = EPost (signaling_request env cid "accept" (sdp d)) r.

(** What a whole call adds to the history, next to the result of the run. *)
Inductive session_shape (env : Env) (call : json) (w : World) (ss : list string) :
    result Response -> list Effect -> Prop :=
| session_early (r : result Response) :
    (forall cid offer_sdp, ~ connect_event call cid offer_sdp) ->
    (r = Ok (web_Response "ignored") \/ exists e, r = Raise e /\ is_lookup_error e) ->
    session_shape env call w ss r []
| session_aborted (e : exn) (pre : list Effect) :
    posts pre = [] ->
    session_shape env call w ss (Raise e) pre
| session_unanswered (cid offer_sdp : json) (audio track : string)
    (d : RTCSessionDescription) (e : exn) :
    connect_event call cid offer_sdp ->
    synthesis_ok env audio ->
    playback_ok env track ->
    negotiation_ok env offer_sdp d ->
    post env (length (log w ++ tts_effects audio))
      (signaling_request env cid "pre_accept" (sdp d)) = Raise e ->
    session_shape env call w ss (Raise e)
      (tts_effects audio ++
       [EPost (signaling_request env cid "pre_accept" (sdp d)) (Raise e)])
| session_watching (cid offer_sdp : json) (audio track : string)
    (d : RTCSessionDescription) (k : Z) (acc : list Effect) :
    connect_event call cid offer_sdp ->
    synthesis_ok env audio ->
    playback_ok env track ->
    negotiation_ok env offer_sdp d ->
    post env (length (log w ++ tts_effects audio))
      (signaling_request env cid "pre_accept" (sdp d)) = Ok k ->
    Forall (is_accept_of env cid d) acc ->
    length acc = connected_count ss ->
    session_shape env call w ss (Ok (web_Response "TTS sent"))
      (tts_effects audio ++
       EPost (signaling_request env cid "pre_accept" (sdp d)) (Ok k) :: acc).

(** The payload gets [handle_call] past its field reads and its event test:
    [id] is there, [event] is the string connect, [session.sdp] is there. *)
Definition is_connect_event (call : json) : bool :=
  negb (is_raise (getitem call "id"))
  && match getitem call "event" with
     | Ok ev => eq_str ev "connect"
     | Raise _ => false
     end
  && negb (is_raise (session_sdp call)).

(** No connection carries more than one listener. *)
Definition single_watch (w : World) : Prop :=
  Forall (fun c => (length (listeners c) <= 1)%nat) (pcs w).

Fixpoint synth_requests (l : list Effect) : list SynthesisRequest :=
  match l with
  | [] => []
  | ESynthesize r :: l' => r :: synth_requests l'
  | _ :: l' => synth_requests l'
  end.

Example run_call0 :
  handle_call env_ok call0 W0 =
  (Ok (web_Response "TTS sent"),
   {| pcs := [ {| tracks := ["audio"];
                  remoteDescription := Some {| sdp := JStr "OFFER_X"; type := "offer" |};
                  localDescription := Some answer_y;
                  iceConnectionState := "new";
                  listeners := [ {| l_event := ICE_EVENT; l_call_id := JStr "C1" |} ] |} ];
      ready := [];
      log := [ ESynthesize greeting_request;
               EWriteFile "/tmp/welcome.wav" "RIFF";
               EPost {| method := "POST";
                        url := "https://graph.facebook.com/v20.0/12345/calls";
                        headers := [("Authorization", "Bearer TOKEN")];
                        json_body := signaling_body (JStr "C1") "pre_accept" (JStr "ANSWER_Y") |}
                     (Ok 200) ] |}).
Proof. reflexivity. Qed.

Example run_ringing0 :
  handle_call env_ok ringing0 W0 = (Ok (web_Response "ignored"), W0).
Proof. reflexivity. Qed.

Example run_call0_connected :
  map (fun p => action_of p) (posts (log (session env_ok call0 ["checking"; "connected"] W0)))
  = [Some (JStr "pre_accept"); Some (JStr "accept")].
Proof. vm_compute. reflexivity. Qed.

Example run_call0_unset_token :
  map headers (posts (log (session env_rejected call0 [] W0)))
  = [[("Authorization", "Bearer None")]].
Proof. vm_compute. reflexivity. Qed.

Example sent_counts :
  sent "accept" (log (session env_ok call0 ["connected"; "connected"] W0)) = 2%nat.
Proof. vm_compute. reflexivity. Qed.


Example run_call0_bad_offer :
  fst (handle_call env_bad_offer call0 W0) = Raise NegotiationError /\
  posts (log (session env_bad_offer call0 ["connected"] W0)) = [].
Proof. vm_compute. split; reflexivity. Qed.

Example run_missing_event :
  handle_call env_ok (JDict [("id", JStr "C1")]) W0 = (Raise (KeyError "event"), W0).
Proof. reflexivity. Qed.

Example run_not_a_dict :
  handle_call env_ok (JList [JStr "id"]) W0 = (Raise TypeError, W0).
Proof. reflexivity. Qed.

Example serve_call0 :
  log (serve env_ok {| req_json := Ok call0 |} W0) =
  [ EResponse (Ok (web_Response "OK"));
    ESynthesize greeting_request;
    EWriteFile "/tmp/welcome.wav" "RIFF";
    EPost (
      {| method := "POST";
         url := "https://graph.facebook.com/v20.0/12345/calls";
         headers := [("Authorization", "Bearer TOKEN")];
         json_body := signaling_body (JStr "C1") "pre_accept" (JStr "ANSWER_Y") |})
      (Ok 200);
    ETaskDone (Ok (web_Response "TTS sent")) ].
Proof. vm_compute. reflexivity. Qed.
(** ** Reasoning about the store and the history *)

Lemma lookup_fresh {A} (h : list A) (x : A) : (h ++ [x]) !! length h = Some x.
Proof. induction h; simpl; auto. Qed.

Lemma alter_fresh {A} (f : A -> A) (h : list A) (x : A) :
  alter f (length h) (h ++ [x]) = h ++ [f x].
Proof. induction h; simpl; [reflexivity | f_equal; auto]. Qed.

Lemma alter_beyond {A} (f : A -> A) (l : list A) (r : nat) :
  l !! r = None -> alter f r l = l.
Proof.
  revert r; induction l as [|x l IH]; intros [|r] H; simpl in *;
    try reflexivity; try discriminate.
  f_equal. apply IH, H.
Qed.

Lemma lookup_alter_same {A} (f : A -> A) (l : list A) (r : nat) :
  alter f r l !! r = f <$> (l !! r).
Proof.
  revert r; induction l as [|x l IH]; intros [|r]; simpl; auto.
Qed.

Lemma eq_str_true (v : json) (s : string) : eq_str v s = true <-> v = JStr s.
Proof.
  destruct v; simpl; split; intros H; try discriminate.
  - apply String.eqb_eq in H. congruence.
  - injection H as ->. apply String.eqb_refl.
Qed.

Lemma posts_app (l1 l2 : list Effect) : posts (l1 ++ l2) = posts l1 ++ posts l2.
Proof.
  induction l1 as [|[] l1 IH]; simpl; auto. f_equal. auto.
Qed.

Lemma sent_app (a : string) (l1 l2 : list Effect) :
  sent a (l1 ++ l2) = (sent a l1 + sent a l2)%nat.
Proof. unfold sent. now rewrite posts_app, filter_app, length_app. Qed.

(** *** What [generate_tts] does *)

Lemma generate_tts_cases (env : Env) (w : World) :
  (exists audio,
      tts_client env = Ok tt /\
      synthesize_speech env greeting_request = Ok audio /\
      write_file env "/tmp/welcome.wav" audio = Ok tt /\
      generate_tts env w =
      (Ok "/tmp/welcome.wav",
       {| pcs := pcs w; ready := ready w;
          log := log w ++ [ESynthesize greeting_request;
                           EWriteFile "/tmp/welcome.wav" audio] |}))
  \/ (exists e pre,
        generate_tts env w =
        (Raise e, {| pcs := pcs w; ready := ready w; log := log w ++ pre |})
        /\ posts pre = []
        /\ (is_raise (tts_client env) = true
            \/ is_raise (synthesize_speech env greeting_request) = true
            \/ exists audio, synthesize_speech env greeting_request = Ok audio
                             /\ is_raise (write_file env "/tmp/welcome.wav" audio) = true)).
Proof.
  unfold generate_tts, bind, lift, emit, ret. fold greeting_request.
  destruct (tts_client env) as [[]|e] eqn:Hc; simpl.
  2:{ right. exists e, []. rewrite app_nil_r. destruct w; simpl. auto. }
  destruct (synthesize_speech env greeting_request) as [audio|e] eqn:Hs; simpl.
  2:{ right. exists e, [ESynthesize greeting_request]. auto. }
  destruct (write_file env "/tmp/welcome.wav" audio) as [[]|e] eqn:Hw; simpl.
  2:{ right. exists e, [ESynthesize greeting_request]. split; [reflexivity|].
      split; [reflexivity|]. right. right. exists audio. rewrite Hw. auto. }
  left. exists audio. rewrite <- app_assoc. auto.
Qed.

(** *** What [handle_call] does *)

Lemma connect_event_fun (call cid cid' o o' : json) :
  connect_event call cid o -> connect_event call cid' o' -> cid = cid' /\ o = o'.
Proof.
  intros (H1 & _ & H3) (H1' & _ & H3'). split; congruence.
Qed.

Lemma handle_call_shape (env : Env) (call : json) (w : World) :
  run_shape env call w (fst (handle_call env call w)) (snd (handle_call env call w)).
Proof.
  unfold handle_call, bind, lift.
  destruct (getitem call "id") as [cid|e] eqn:Hid; simpl.
  2:{ apply run_early.
      - intros c o (H & _). congruence.
      - right. exists e. split; [reflexivity|].
        unfold getitem in Hid. destruct call; try (injection Hid as <-; left; reflexivity).
        destruct (dict_get d "id"); [discriminate|]. injection Hid as <-. right. eauto. }
  destruct (getitem call "event") as [ev|e] eqn:Hev; simpl.
  2:{ apply run_early.
      - intros c o (_ & H & _). congruence.
      - right. exists e. split; [reflexivity|].
        unfold getitem in Hev. destruct call; try (injection Hev as <-; left; reflexivity).
        destruct (dict_get d "event"); [discriminate|]. injection Hev as <-. right. eauto. }
  destruct (eq_str ev "connect") eqn:Hc; simpl.
  2:{ apply run_early.
      - intros c o (_ & H & _). rewrite Hev in H. injection H as ->. discriminate.
      - left. reflexivity. }
  apply eq_str_true in Hc. subst ev.
  destruct (getitem call "session") as [s|e] eqn:Hs; simpl.
  2:{ apply run_early.
      - intros c o (_ & _ & H). unfold session_sdp in H. rewrite Hs in H. discriminate.
      - right. exists e. split; [reflexivity|].
        unfold getitem in Hs. destruct call; try (injection Hs as <-; left; reflexivity).
        destruct (dict_get d "session"); [discriminate|]. injection Hs as <-. right. eauto. }
  destruct (getitem s "sdp") as [offer|e] eqn:Ho; simpl.
  2:{ apply run_early.
      - intros c o (_ & _ & H). unfold session_sdp in H. rewrite Hs, Ho in H. discriminate.
      - right. exists e. split; [reflexivity|].
        unfold getitem in Ho. destruct s; try (injection Ho as <-; left; reflexivity).
        destruct (dict_get d "sdp"); [discriminate|]. injection Ho as <-. right. eauto. }
  assert (Hconn : connect_event call cid offer).
  { unfold connect_event, session_sdp. rewrite Hs. auto. }
  destruct (generate_tts_cases env
              {| pcs := pcs w ++ [new_pc]; ready := ready w; log := log w |})
    as [(audio & Ht1 & Ht2 & Ht3 & ->) | (e & pre & -> & Hpre & _)]; simpl.
  2:{ apply run_aborted; auto. }
  destruct (media_player env "/tmp/welcome.wav") as [track|e] eqn:Hmp; simpl.
  2:{ apply run_aborted; auto. }
  unfold addTrack, bind, lift; simpl.
  destruct (add_track env track) as [[]|e] eqn:Hat; simpl.
  2:{ apply run_aborted; auto. }
  rewrite alter_fresh.
  unfold setRemoteDescription, bind, lift; simpl. fold (offer_of offer).
  destruct (set_remote_description env (offer_of offer)) as [[]|e] eqn:Hsr; simpl.
  2:{ apply run_aborted; auto. }
  rewrite alter_fresh.
  unfold createAnswer, bind, lift, pc_read; simpl. rewrite lookup_fresh. simpl.
  destruct (create_answer env (offer_of offer)) as [answer|e] eqn:Hca; simpl.
  2:{ apply run_aborted; auto. }
  unfold setLocalDescription, bind, lift; simpl.
  destruct (set_local_description env answer) as [d|e] eqn:Hsl; simpl.
  2:{ apply run_aborted; auto. }
  rewrite alter_fresh.
  unfold localDescription_sdp, bind, pc_read; simpl. rewrite lookup_fresh. simpl.
  fold (tts_effects audio).
  fold (signaling_request env cid "pre_accept" (sdp d)).
  destruct (post env (length (log w ++ tts_effects audio))
              (signaling_request env cid "pre_accept" (sdp d))) as [k|e] eqn:Hp; simpl.
  - rewrite alter_fresh. rewrite <- app_assoc.
    apply (run_watching env call w cid offer audio track d k); unfold synthesis_ok,
      playback_ok, negotiation_ok; eauto.
  - rewrite <- app_assoc.
    apply (run_unanswered env call w cid offer audio track d e); unfold synthesis_ok,
      playback_ok, negotiation_ok; eauto.
Qed.

(** *** What a connectivity change does *)

Lemma with_ice_id (c : PeerConnection) : with_ice (iceConnectionState c) c = c.
Proof. destruct c; reflexivity. Qed.

Lemma closure_keeps_store (env : Env) (r : nat) (cid : json) (w : World) :
  pcs (snd (on_iceconnectionstatechange env r cid w)) = pcs w /\
  ready (snd (on_iceconnectionstatechange env r cid w)) = ready w.
Proof.
  unfold on_iceconnectionstatechange, bind, pc_read, localDescription_sdp.
  destruct (pcs w !! r) as [c|] eqn:Hc; simpl; auto.
  destruct (String.eqb (iceConnectionState c) "connected"); simpl; auto.
  unfold bind, pc_read. rewrite Hc.
  destruct (localDescription c); simpl; auto.
  unfold requests_post.
  destruct (post env _ _); simpl; auto.
Qed.

(** The closure does nothing at all unless it reads the state connected. *)
Lemma closure_idle (env : Env) (r : nat) (cid : json) (w : World) :
  (forall c, pcs w !! r = Some c -> iceConnectionState c <> "connected") ->
  snd (on_iceconnectionstatechange env r cid w) = w.
Proof.
  intros H. unfold on_iceconnectionstatechange, bind, pc_read.
  destruct (pcs w !! r) as [c|] eqn:Hc; simpl; auto.
  destruct (String.eqb (iceConnectionState c) "connected") eqn:E; simpl; auto.
  apply String.eqb_eq in E. exfalso. exact (H c eq_refl E).
Qed.

Lemma closure_connected (env : Env) (r : nat) (cid : json) (w : World)
    (c : PeerConnection) (d : RTCSessionDescription) :
  pcs w !! r = Some c ->
  iceConnectionState c = "connected" ->
  localDescription c = Some d ->
  snd (on_iceconnectionstatechange env r cid w) =
  {| pcs := pcs w; ready := ready w;
     log := log w ++ [EPost (signaling_request env cid "accept" (sdp d))
                        (post env (length (log w))
                           (signaling_request env cid "accept" (sdp d)))] |}.
Proof.
  intros Hc Hs Hd.
  unfold on_iceconnectionstatechange, bind, pc_read, localDescription_sdp.
  rewrite Hc; simpl. rewrite Hs; simpl.
  unfold bind, pc_read. rewrite Hc, Hd; simpl.
  unfold requests_post, signaling_request.
  destruct (post env _ _); reflexivity.
Qed.

Lemma fold_left_fixed {A B} (f : A -> B -> A) (l : list B) (a : A) :
  (forall b, In b l -> f a b = a) -> fold_left f l a = a.
Proof.
  induction l as [|b l IH]; simpl; intros H; [reflexivity|].
  rewrite (H b) by auto. apply IH. auto.
Qed.

Lemma listeners_keep_store (env : Env) (r : nat) (ls : list Listener) (w : World) :
  pcs (fold_left (fun w' l => run_listener env r ICE_EVENT l w') ls w) = pcs w /\
  ready (fold_left (fun w' l => run_listener env r ICE_EVENT l w') ls w) = ready w.
Proof.
  revert w. induction ls as [|l ls IH]; intros w; simpl; auto.
  destruct (IH (run_listener env r ICE_EVENT l w)) as [-> ->].
  unfold run_listener. destruct (String.eqb (l_event l) ICE_EVENT); auto.
  apply closure_keeps_store.
Qed.

Lemma ice_change_store (env : Env) (r : nat) (s : string) (w : World) :
  pcs (ice_change env r s w) = alter (with_ice s) r (pcs w) /\
  ready (ice_change env r s w) = ready w.
Proof.
  unfold ice_change, pc_update; simpl.
  destruct (alter (with_ice s) r (pcs w) !! r) as [c|]; simpl; auto.
  exact (listeners_keep_store env r (listeners c)
           {| pcs := alter (with_ice s) r (pcs w); ready := ready w; log := log w |}).
Qed.

(** Any state other than connected: only the library's own update of the
    state is left behind, whatever listeners the connection has. *)
Lemma ice_change_other (env : Env) (r : nat) (s : string) (w : World) :
  s <> "connected" ->
  ice_change env r s w =
  {| pcs := alter (with_ice s) r (pcs w); ready := ready w; log := log w |}.
Proof.
  intros Hs. unfold ice_change, pc_update; simpl.
  destruct (alter (with_ice s) r (pcs w) !! r) as [c|] eqn:Hc; simpl; auto.
  apply fold_left_fixed. intros l _.
  unfold run_listener. destruct (String.eqb (l_event l) ICE_EVENT); auto.
  apply closure_idle. simpl. intros c'.
  rewrite lookup_alter_same. destruct (pcs w !! r); simpl; [|discriminate].
  intros [= <-]. exact Hs.
Qed.

Lemma ice_change_unwatched (env : Env) (r : nat) (s : string) (w : World)
    (c : PeerConnection) :
  pcs w !! r = Some c ->
  listeners c = [] ->
  ice_change env r s w =
  {| pcs := alter (with_ice s) r (pcs w); ready := ready w; log := log w |}.
Proof.
  intros Hc Hl. unfold ice_change, pc_update; simpl.
  rewrite lookup_alter_same, Hc; simpl. rewrite Hl. reflexivity.
Qed.

Lemma ice_change_no_pc (env : Env) (r : nat) (s : string) (w : World) :
  pcs w !! r = None -> ice_change env r s w = w.
Proof.
  intros Hc. unfold ice_change, pc_update; simpl.
  rewrite lookup_alter_same, Hc; simpl.
  rewrite alter_beyond by exact Hc. destruct w; reflexivity.
Qed.

(** The state connected, with the one watch [handle_call] registers. *)
Lemma ice_change_connected (env : Env) (r : nat) (w : World)
    (c : PeerConnection) (cid : json) (d : RTCSessionDescription) :
  pcs w !! r = Some c ->
  listeners c = [watch cid] ->
  localDescription c = Some d ->
  ice_change env r "connected" w =
  {| pcs := alter (with_ice "connected") r (pcs w); ready := ready w;
     log := log w ++ [EPost (signaling_request env cid "accept" (sdp d))
                        (post env (length (log w))
                           (signaling_request env cid "accept" (sdp d)))] |}.
Proof.
  intros Hc Hl Hd. unfold ice_change, pc_update; simpl.
  rewrite lookup_alter_same, Hc; simpl. rewrite Hl; simpl.
  unfold run_listener; simpl.
  rewrite (closure_connected env r cid _ (with_ice "connected" c) d); simpl; auto.
  rewrite lookup_alter_same, Hc; reflexivity.
Qed.

(** *** A run followed by connectivity changes *)

Lemma ice_changes_no_pc (env : Env) (r : nat) (ss : list string) (w : World) :
  pcs w !! r = None -> ice_changes env r ss w = w.
Proof.
  intros H. unfold ice_changes. induction ss as [|s ss IH]; simpl; [reflexivity|].
  rewrite ice_change_no_pc by exact H. exact IH.
Qed.

Lemma ice_changes_unwatched (env : Env) (ss : list string) (h : list PeerConnection)
    (c : PeerConnection) (q : list Task) (l : list Effect) :
  listeners c = [] ->
  exists s',
    ice_changes env (length h) ss {| pcs := h ++ [c]; ready := q; log := l |} =
    {| pcs := h ++ [with_ice s' c]; ready := q; log := l |}.
Proof.
  unfold ice_changes. revert c. induction ss as [|s ss IH]; intros c Hl; simpl.
  - exists (iceConnectionState c). now rewrite with_ice_id.
  - rewrite (ice_change_unwatched env (length h) s _ c); simpl;
      [| apply lookup_fresh | exact Hl].
    rewrite alter_fresh.
    destruct (IH (with_ice s c) Hl) as [s' ->]. exists s'. reflexivity.
Qed.

Lemma connected_count_cons (s : string) (ss : list string) :
  connected_count (s :: ss) =
  if String.eqb s "connected" then S (connected_count ss) else connected_count ss.
Proof.
  unfold connected_count. destruct (String.eqb s "connected") eqn:E.
  - apply String.eqb_eq in E. rewrite filter_cons_True by exact E. reflexivity.
  - apply String.eqb_neq in E. rewrite filter_cons_False by exact E. reflexivity.
Qed.

Lemma ice_changes_watching (env : Env) (ss : list string) (h : list PeerConnection)
    (c : PeerConnection) (q : list Task) (l : list Effect)
    (cid : json) (d : RTCSessionDescription) :
  listeners c = [watch cid] ->
  localDescription c = Some d ->
  exists s' acc,
    ice_changes env (length h) ss {| pcs := h ++ [c]; ready := q; log := l |} =
    {| pcs := h ++ [with_ice s' c]; ready := q; log := l ++ acc |}
    /\ Forall (is_accept_of env cid d) acc
    /\ length acc = connected_count ss.
Proof.
  unfold ice_changes. revert c l.
  induction ss as [|s ss IH]; intros c l Hl Hd; simpl.
  - exists (iceConnectionState c), []. rewrite with_ice_id, app_nil_r. auto.
  - rewrite connected_count_cons.
    destruct (String.eqb s "connected") eqn:E.
    + apply String.eqb_eq in E. subst s.
      rewrite (ice_change_connected env (length h) _ c cid d); simpl;
        [| apply lookup_fresh | exact Hl | exact Hd].
      rewrite alter_fresh.
      destruct (IH (with_ice "connected" c)
                  (l ++ [EPost (signaling_request env cid "accept" (sdp d))
                           (post env (length l)
                              (signaling_request env cid "accept" (sdp d)))]) Hl Hd)
        as (s' & acc & -> & Hacc & Hlen).
      exists s', (EPost (signaling_request env cid "accept" (sdp d))
                    (post env (length l) (signaling_request env cid "accept" (sdp d)))
                  :: acc).
      rewrite <- app_assoc. simpl. split; [reflexivity|]. split.
      * constructor; [eexists; reflexivity | exact Hacc].
      * now rewrite Hlen.
    + apply String.eqb_neq in E.
      rewrite ice_change_other by exact E. simpl. rewrite alter_fresh.
      destruct (IH (with_ice s c) l Hl Hd) as (s' & acc & -> & Hacc & Hlen).
      exists s', acc. auto.
Qed.

Lemma session_outcome (env : Env) (call : json) (ss : list string) (w : World) :
  exists new,
    log (session env call ss w) = log w ++ new /\
    session_shape env call w ss (fst (handle_call env call w)) new.
Proof.
  unfold session.
  destruct (handle_call_shape env call w)
    as [r Hn Hr | e c pre Hl Hp | cid o audio track d e Hc Hs Hb Hg Hpost
        | cid o audio track d k Hc Hs Hb Hg Hpost].
  - exists []. rewrite ice_changes_no_pc by (apply lookup_ge_None; lia).
    rewrite app_nil_r. split; [reflexivity|]. now apply session_early.
  - destruct (ice_changes_unwatched env ss (pcs w) c (ready w) (log w ++ pre) Hl)
      as [s' ->].
    exists pre. split; [reflexivity|]. now apply session_aborted.
  - destruct (ice_changes_unwatched env ss (pcs w) (negotiated_pc track o d [])
                (ready w)
                (log w ++ tts_effects audio ++
                 [EPost (signaling_request env cid "pre_accept" (sdp d)) (Raise e)])
                eq_refl) as [s' ->].
    eexists. split; [reflexivity|]. now apply (session_unanswered _ _ _ _ cid o audio track d e).
  - destruct (ice_changes_watching env ss (pcs w) (negotiated_pc track o d [watch cid])
                (ready w)
                (log w ++ tts_effects audio ++
                 [EPost (signaling_request env cid "pre_accept" (sdp d)) (Ok k)])
                cid d eq_refl eq_refl) as (s' & acc & -> & Hacc & Hlen).
    exists (tts_effects audio ++
            EPost (signaling_request env cid "pre_accept" (sdp d)) (Ok k) :: acc).
    split.
    + simpl. rewrite <- !app_assoc. reflexivity.
    + now apply (session_watching _ _ _ _ cid o audio track d k acc).
Qed.

(** *** The run when every collaborator up to the first post answers *)

Lemma handle_call_negotiated (env : Env) (call : json) (w : World)
    (cid offer_sdp : json) (audio track : string) (d : RTCSessionDescription) :
  connect_event call cid offer_sdp ->
  synthesis_ok env audio ->
  playback_ok env track ->
  negotiation_ok env offer_sdp d ->
  handle_call env call w =
  match post env (length (log w ++ tts_effects audio))
          (signaling_request env cid "pre_accept" (sdp d)) with
  | Ok k =>
      (Ok (web_Response "TTS sent"),
       {| pcs := pcs w ++ [negotiated_pc track offer_sdp d [watch cid]];
          ready := ready w;
          log := log w ++ tts_effects audio ++
                 [EPost (signaling_request env cid "pre_accept" (sdp d)) (Ok k)] |})
  | Raise e =>
      (Raise e,
       {| pcs := pcs w ++ [negotiated_pc track offer_sdp d []];
          ready := ready w;
          log := log w ++ tts_effects audio ++
                 [EPost (signaling_request env cid "pre_accept" (sdp d)) (Raise e)] |})
  end.
Proof.
  intros (Hid & Hev & Hsdp) (Ht1 & Ht2 & Ht3) (Hmp & Hat) (Hsr & answer & Hca & Hsl).
  unfold session_sdp in Hsdp.
  destruct (getitem call "session") as [s|] eqn:Hs; [|discriminate].
  unfold handle_call, bind, lift. rewrite Hid, Hev; simpl. rewrite Hs, Hsdp; simpl.
  unfold generate_tts, bind, lift, emit, ret. fold greeting_request.
  rewrite Ht1; simpl. rewrite Ht2; simpl. rewrite Ht3; simpl. rewrite Hmp; simpl.
  unfold addTrack, bind, lift. rewrite Hat; simpl. rewrite alter_fresh.
  unfold setRemoteDescription, bind, lift. fold (offer_of offer_sdp).
  rewrite Hsr; simpl. rewrite alter_fresh.
  unfold createAnswer, bind, lift, pc_read; simpl. rewrite lookup_fresh; simpl.
  rewrite Hca; simpl.
  unfold setLocalDescription, bind, lift. rewrite Hsl; simpl. rewrite alter_fresh.
  unfold localDescription_sdp, bind, pc_read; simpl. rewrite lookup_fresh; simpl.
  rewrite <- app_assoc; simpl.
  fold (tts_effects audio).
  fold (signaling_request env cid "pre_accept" (sdp d)).
  destruct (post env (length (log w ++ tts_effects audio))
              (signaling_request env cid "pre_accept" (sdp d))); simpl.
  - rewrite alter_fresh, <- app_assoc. reflexivity.
  - rewrite <- app_assoc. reflexivity.
Qed.

(** The field reads at the head of [handle_call]. *)
Lemma handle_call_no_id (env : Env) (call : json) (w : World) (e : exn) :
  getitem call "id" = Raise e -> handle_call env call w = (Raise e, w).
Proof. intros H. unfold handle_call, bind, lift. now rewrite H. Qed.

Lemma handle_call_no_event (env : Env) (call : json) (w : World) (cid : json) (e : exn) :
  getitem call "id" = Ok cid ->
  getitem call "event" = Raise e ->
  handle_call env call w = (Raise e, w).
Proof. intros H1 H2. unfold handle_call, bind, lift. now rewrite H1, H2. Qed.

Lemma handle_call_ignored (env : Env) (call : json) (w : World) (cid ev : json) :
  getitem call "id" = Ok cid ->
  getitem call "event" = Ok ev ->
  ev <> JStr "connect" ->
  handle_call env call w = (Ok (web_Response "ignored"), w).
Proof.
  intros H1 H2 H3. unfold handle_call, bind, lift. rewrite H1, H2.
  destruct (eq_str ev "connect") eqn:E; [|reflexivity].
  apply eq_str_true in E. contradiction.
Qed.

Lemma handle_call_no_sdp (env : Env) (call : json) (w : World) (cid : json) (e : exn) :
  getitem call "id" = Ok cid ->
  getitem call "event" = Ok (JStr "connect") ->
  session_sdp call = Raise e ->
  handle_call env call w = (Raise e, w).
Proof.
  intros H1 H2 H3. unfold handle_call, bind, lift. rewrite H1, H2; simpl.
  unfold session_sdp in H3.
  destruct (getitem call "session") as [s|e'] eqn:Hs; simpl.
  - now rewrite H3.
  - congruence.
Qed.

Lemma getitem_raises (v : json) (k : string) (e : exn) :
  getitem v k = Raise e -> is_lookup_error e.
Proof.
  unfold getitem, is_lookup_error. intros H.
  destruct v; try (injection H as <-; left; reflexivity).
  destruct (dict_get d k); [discriminate|]. injection H as <-. right. eauto.
Qed.

Lemma session_sdp_raises (v : json) (e : exn) :
  session_sdp v = Raise e -> is_lookup_error e.
Proof.
  unfold session_sdp. intros H.
  destruct (getitem v "session") as [s|e'] eqn:Hs.
  - exact (getitem_raises _ _ _ H).
  - injection H as <-. exact (getitem_raises _ _ _ Hs).
Qed.

(** *** The history only grows *)

Lemma handle_call_log (env : Env) (call : json) (w : World) :
  exists new, log (snd (handle_call env call w)) = log w ++ new.
Proof.
  destruct (handle_call_shape env call w); simpl; eauto.
  exists []. now rewrite app_nil_r.
Qed.

Lemma run_task_log (env : Env) (t : Task) (w : World) :
  exists new, log (run_task env t w) = log w ++ new.
Proof.
  destruct t as [data]. unfold run_task.
  destruct (handle_call_log env data w) as [new Hn].
  destruct (handle_call env data w) as [r w']; simpl in *.
  rewrite Hn, <- app_assoc. eauto.
Qed.

Lemma run_tasks_log (env : Env) (q : list Task) (w : World) :
  exists new, log (fold_left (fun w' t => run_task env t w') q w) = log w ++ new.
Proof.
  revert w. induction q as [|t q IH]; intros w; simpl.
  - exists []. now rewrite app_nil_r.
  - destruct (IH (run_task env t w)) as [n2 ->].
    destruct (run_task_log env t w) as [n1 ->].
    rewrite <- app_assoc. eauto.
Qed.

(** *** Counting posts *)

Lemma sent_accepts (env : Env) (cid : json) (d : RTCSessionDescription)
    (acc : list Effect) :
  Forall (is_accept_of env cid d) acc ->
  sent "accept" acc = length acc /\ sent "pre_accept" acc = 0%nat.
Proof.
  induction 1 as [|x acc [r ->] _ [IH1 IH2]]; [split; reflexivity|].
  change (EPost (signaling_request env cid "accept" (sdp d)) r :: acc)
    with ([EPost (signaling_request env cid "accept" (sdp d)) r] ++ acc).
  rewrite !sent_app, IH1, IH2. split; reflexivity.
Qed.

Lemma posts_accepts (env : Env) (cid : json) (d : RTCSessionDescription)
    (acc : list Effect) (p : HttpRequest) :
  Forall (is_accept_of env cid d) acc ->
  In p (posts acc) -> p = signaling_request env cid "accept" (sdp d).
Proof.
  induction 1 as [|x acc [r ->] _ IH]; simpl; [tauto|].
  intros [<- | H]; auto.
Qed.

Lemma posts_none_no_post (l l1 l2 : list Effect) (p : HttpRequest) (r : result Z) :
  posts l = [] -> l <> l1 ++ EPost p r :: l2.
Proof.
  intros H ->. rewrite posts_app in H. simpl in H.
  destruct (posts l1); discriminate.
Qed.

(** * Properties of the service *)

(** ** Ordering of pre-accept and accept *)

(** C1. Whatever the payload, the collaborators and the connectivity changes
    that follow, in what one call adds to the history every accept post
    comes strictly after a pre-accept post for the same call_id, and that
    pre-accept post was answered: no accept without an earlier pre-accept. *)
Theorem C1_pre_accept_before_accept (env : Env) (call : json) (ss : list string)
    (w : World) :
  exists new,
    log (session env call ss w) = log w ++ new /\
    accept_follows_pre_accept new.
Proof.
  destruct (session_outcome env call ss w) as (new & Hlog & Hshape).
  exists new. split; [exact Hlog|].
  intros l1 p r l2 Heq Hacc.
  destruct Hshape
    as [r0 _ _ | e pre Hp | cid o audio track d e _ _ _ _ _
        | cid o audio track d k acc _ _ _ _ _ Hall _].
  - destruct l1; discriminate.
  - exfalso. exact (posts_none_no_post _ _ _ _ _ Hp Heq).
  - exfalso. unfold tts_effects in Heq. simpl in Heq.
    destruct l1 as [|a [|b [|c l1]]]; simpl in Heq; try discriminate.
    + inversion Heq; subst. discriminate Hacc.
    + inversion Heq as [[Ha Hb Hc Htail]]. destruct l1; discriminate.
  - unfold tts_effects in Heq. simpl in Heq.
    destruct l1 as [|a [|b [|c l1]]]; simpl in Heq; try discriminate.
    + exfalso. inversion Heq; subst. discriminate Hacc.
    + inversion Heq as [[Ha Hb Hc Htail]]. subst a b c.
      exists (signaling_request env cid "pre_accept" (sdp d)), k.
      split; [simpl; auto|]. split; [reflexivity|].
      assert (Hin : In p (posts acc)).
      { rewrite Htail, posts_app. apply in_or_app. right. simpl. auto. }
      rewrite (posts_accepts env cid d acc p Hall Hin). reflexivity.
Qed.

(** ** The form of what is posted *)

(** C7. Every request one call sends out is a POST to
    GRAPH/PHONE_NUMBER_ID/calls with the header Authorization: Bearer
    WHATSAPP_TOKEN and the JSON body
    {messaging_product: whatsapp, call_id, action, session: {sdp_type:
    answer, sdp}}, where call_id is the payload's id, action is pre_accept
    or accept, and sdp is that of the local description negotiation left on
    the connection. *)
Theorem C7_signaling_request_format (env : Env) (call : json) (ss : list string)
    (w : World) :
  exists new,
    log (session env call ss w) = log w ++ new /\
    forall p, In p (posts new) ->
      exists cid offer_sdp answer d action,
        getitem call "id" = Ok cid /\
        session_sdp call = Ok offer_sdp /\
        create_answer env {| sdp := offer_sdp; type := "offer" |} = Ok answer /\
        set_local_description env answer = Ok d /\
        (action = "pre_accept" \/ action = "accept") /\
        p = {| method := "POST";
               url := GRAPH +:+ "/" +:+ fstr (PHONE_NUMBER_ID env) +:+ "/calls";
               headers := [("Authorization", "Bearer " +:+ fstr (WHATSAPP_TOKEN env))];
               json_body :=
                 JDict [("messaging_product", JStr "whatsapp");
                        ("call_id", cid);
                        ("action", JStr action);
                        ("session", JDict [("sdp_type", JStr "answer");
                                           ("sdp", sdp d)])] |}.
Proof.
  destruct (session_outcome env call ss w) as (new & Hlog & Hshape).
  exists new. split; [exact Hlog|].
  intros p Hin.
  destruct Hshape
    as [r0 _ _ | e pre Hp | cid o audio track d e Hc _ _ Hn _
        | cid o audio track d k acc Hc _ _ Hn _ Hall _].
  - destruct Hin.
  - rewrite Hp in Hin. destruct Hin.
  - destruct Hc as (Hid & _ & Hsdp). destruct Hn as (_ & answer & Hca & Hsl).
    simpl in Hin. destruct Hin as [<- | []].
    exists cid, o, answer, d, "pre_accept". auto 10.
  - destruct Hc as (Hid & _ & Hsdp). destruct Hn as (_ & answer & Hca & Hsl).
    simpl in Hin. destruct Hin as [<- | Hin].
    + exists cid, o, answer, d, "pre_accept". auto 10.
    + rewrite (posts_accepts env cid d acc p Hall Hin).
      exists cid, o, answer, d, "accept". auto 10.
Qed.

(** ** Repeated connected notifications *)

(** C3, as stated, does not hold: two connected notifications in a row
    after a completed run post two accepts, not one. *)
Lemma C3_two_connected_two_accepts :
  fst (handle_call env_ok call0 W0) = Ok (web_Response "TTS sent") /\
  sent "accept" (log (session env_ok call0 ["connected"; "connected"] W0)) = 2%nat /\
  sent "accept" (log (session env_ok call0 ["connected"; "connected"] W0)) <> 1%nat.
Proof. vm_compute. repeat split; congruence. Qed.

(** C3, amended. After a run that reached its end, every connectivity
    change to connected posts one accept: the call sends exactly one
    pre-accept and as many accepts as there were connected notifications. *)
Theorem C3_one_accept_per_connected (env : Env) (call : json) (ss : list string)
    (w : World) :
  fst (handle_call env call w) = Ok (web_Response "TTS sent") ->
  exists new,
    log (session env call ss w) = log w ++ new /\
    sent "pre_accept" new = 1%nat /\
    sent "accept" new = connected_count ss.
Proof.
  intros Hr.
  destruct (session_outcome env call ss w) as (new & Hlog & Hshape).
  exists new. split; [exact Hlog|].
  rewrite Hr in Hshape. inversion Hshape as
    [r0 _ Hearly | | | cid o audio track d k acc _ _ _ _ _ Hall Hlen]; subst.
  - destruct Hearly as [H | (e & H & _)]; discriminate.
  - destruct (sent_accepts env cid d acc Hall) as [Ha Hp].
    change (tts_effects audio ++
            EPost (signaling_request env cid "pre_accept" (sdp d)) (Ok k) :: acc)
      with ((tts_effects audio ++
             [EPost (signaling_request env cid "pre_accept" (sdp d)) (Ok k)]) ++ acc).
    rewrite !sent_app, Ha, Hp, Hlen. split; reflexivity.
Qed.

Lemma C3_one_accept_per_connected_witness :
  fst (handle_call env_ok call0 W0) = Ok (web_Response "TTS sent") /\
  exists new,
    log (session env_ok call0 ["connected"; "checking"; "connected"] W0) = log W0 ++ new /\
    sent "pre_accept" new = 1%nat /\
    sent "accept" new = connected_count ["connected"; "checking"; "connected"].
Proof.
  split; [reflexivity|].
  apply (C3_one_accept_per_connected env_ok call0
           ["connected"; "checking"; "connected"] W0).
  reflexivity.
Defined.

(** ** Failures before signaling *)

(** C4. On a connect event, when speech synthesis raises or one of the
    negotiation steps raises, the run ends with that exception and the call
    posts nothing, whatever connectivity changes follow. *)
Theorem C4_failure_means_no_signaling (env : Env) (call cid offer_sdp : json)
    (ss : list string) (w : World) :
  connect_event call cid offer_sdp ->
  synthesis_fails env \/ negotiation_fails env offer_sdp ->
  (exists e, fst (handle_call env call w) = Raise e) /\
  exists new,
    log (session env call ss w) = log w ++ new /\ posts new = [].
Proof.
  intros Hc Hfail.
  assert (Hno : forall audio d cid', connect_event call cid' offer_sdp ->
                  synthesis_ok env audio -> negotiation_ok env offer_sdp d -> False).
  { intros audio d cid' _ (Ht1 & Ht2 & _) (Hsr & answer & Hca & Hsl).
    destruct Hfail as [[H | H] | [H | [H | (answer' & Hca' & H)]]].
    - rewrite Ht1 in H. discriminate.
    - rewrite Ht2 in H. discriminate.
    - rewrite Hsr in H. discriminate.
    - rewrite Hca in H. discriminate.
    - rewrite Hca in Hca'. injection Hca' as <-. rewrite Hsl in H. discriminate. }
  destruct (session_outcome env call ss w) as (new & Hlog & Hshape).
  destruct Hshape
    as [r0 Hn _ | e pre Hp | cid' o audio track d e Hc' Hs _ Hg _
        | cid' o audio track d k acc Hc' Hs _ Hg _ _ _].
  - exfalso. exact (Hn cid offer_sdp Hc).
  - split; [eauto|]. exists pre. auto.
  - exfalso. destruct (connect_event_fun _ _ _ _ _ Hc Hc') as [_ <-]. eauto.
  - exfalso. destruct (connect_event_fun _ _ _ _ _ Hc Hc') as [_ <-]. eauto.
Qed.

Lemma C4_failure_means_no_signaling_witness :
  connect_event call0 (JStr "C1") (JStr "OFFER_X") /\
  (synthesis_fails env_no_tts \/ negotiation_fails env_no_tts (JStr "OFFER_X")) /\
  (exists e, fst (handle_call env_no_tts call0 W0) = Raise e) /\
  exists new,
    log (session env_no_tts call0 ["connected"] W0) = log W0 ++ new /\ posts new = [].
Proof.
  assert (Hc : connect_event call0 (JStr "C1") (JStr "OFFER_X"))
    by (repeat split; reflexivity).
  assert (Hf : synthesis_fails env_no_tts \/ negotiation_fails env_no_tts (JStr "OFFER_X"))
    by (left; right; reflexivity).
  split; [exact Hc|]. split; [exact Hf|].
  exact (C4_failure_means_no_signaling env_no_tts call0 (JStr "C1") (JStr "OFFER_X")
           ["connected"] W0 Hc Hf).
Defined.

(** ** Connectivity states other than connected *)

Lemma ice_changes_keep_watch (env : Env) (r : nat) (ss : list string) (w : World)
    (c : PeerConnection) :
  pcs w !! r = Some c ->
  exists s', pcs (ice_changes env r ss w) !! r = Some (with_ice s' c).
Proof.
  unfold ice_changes. revert w c. induction ss as [|s ss IH]; intros w c Hc; simpl.
  - exists (iceConnectionState c). now rewrite with_ice_id.
  - destruct (IH (ice_change env r s w) (with_ice s c)) as [s' Hs'].
    + destruct (ice_change_store env r s w) as [-> _].
      rewrite lookup_alter_same, Hc. reflexivity.
    + exists s'. exact Hs'.
Qed.

(** C5. A connectivity change to any state other than connected (failed,
    disconnected, closed, connecting, ...) posts no accept: the history, and
    with it the number of accepts sent, is what it was before. *)
Theorem C5_no_accept_unless_connected (env : Env) (pc : nat) (s : string) (w : World) :
  s <> "connected" ->
  log (ice_change env pc s w) = log w /\
  sent "accept" (log (ice_change env pc s w)) = sent "accept" (log w).
Proof.
  intros Hs. rewrite ice_change_other by exact Hs. split; reflexivity.
Qed.

Lemma C5_no_accept_unless_connected_witness :
  "failed" <> "connected" /\
  listeners <$> (pcs (snd (handle_call env_ok call0 W0)) !! 0%nat)
    = Some [watch (JStr "C1")] /\
  log (ice_change env_ok 0 "failed" (snd (handle_call env_ok call0 W0)))
    = log (snd (handle_call env_ok call0 W0)) /\
  sent "accept" (log (ice_change env_ok 0 "failed" (snd (handle_call env_ok call0 W0))))
    = sent "accept" (log (snd (handle_call env_ok call0 W0))).
Proof.
  assert (Hs : "failed" <> "connected") by discriminate.
  split; [exact Hs|]. split; [reflexivity|].
  exact (C5_no_accept_unless_connected env_ok 0 "failed"
           (snd (handle_call env_ok call0 W0)) Hs).
Defined.

(** C10. A connectivity change to any state other than connected leaves
    everything as it was apart from the connection's own record of its ICE
    state: nothing is posted, no task is scheduled, and the connection keeps
    its tracks, descriptions and listeners.  The listeners stay registered
    through every later change too: the watch is never removed. *)
Theorem C10_other_states_change_nothing (env : Env) (pc : nat) (s : string) (w : World) :
  s <> "connected" ->
  ice_change env pc s w =
    {| pcs := alter (with_ice s) pc (pcs w); ready := ready w; log := log w |} /\
  forall c later,
    pcs w !! pc = Some c ->
    exists c',
      pcs (ice_changes env pc (s :: later) w) !! pc = Some c' /\
      listeners c' = listeners c /\
      tracks c' = tracks c /\
      remoteDescription c' = remoteDescription c /\
      localDescription c' = localDescription c.
Proof.
  intros Hs. split; [exact (ice_change_other env pc s w Hs)|].
  intros c later Hc.
  destruct (ice_changes_keep_watch env pc (s :: later) w c Hc) as [s' Hs'].
  exists (with_ice s' c). split; [exact Hs'|]. repeat split; reflexivity.
Qed.

Lemma C10_other_states_change_nothing_witness :
  "disconnected" <> "connected" /\
  ice_change env_ok 0 "disconnected" (snd (handle_call env_ok call0 W0)) =
    {| pcs := alter (with_ice "disconnected") 0%nat
                (pcs (snd (handle_call env_ok call0 W0)));
       ready := ready (snd (handle_call env_ok call0 W0));
       log := log (snd (handle_call env_ok call0 W0)) |} /\
  forall c later,
    pcs (snd (handle_call env_ok call0 W0)) !! 0%nat = Some c ->
    exists c',
      pcs (ice_changes env_ok 0 ("disconnected" :: later)
             (snd (handle_call env_ok call0 W0))) !! 0%nat = Some c' /\
      listeners c' = listeners c /\
      tracks c' = tracks c /\
      remoteDescription c' = remoteDescription c /\
      localDescription c' = localDescription c.
Proof.
  assert (Hs : "disconnected" <> "connected") by discriminate.
  split; [exact Hs|].
  exact (C10_other_states_change_nothing env_ok 0 "disconnected"
           (snd (handle_call env_ok call0 W0)) Hs).
Defined.

(** ** The HTTP handler *)

Lemma handle_req_parsed (data : json) (w : World) :
  handle_req {| req_json := Ok data |} w =
  (Ok {| status := 200; text := "OK" |},
   {| pcs := pcs w; ready := ready w ++ [TaskHandleCall data]; log := log w |}).
Proof. reflexivity. Qed.

Lemma serve_timeline (env : Env) (data : json) (w : World) :
  exists w' mid,
    log (serve env {| req_json := Ok data |} w) =
    log w ++ EResponse (Ok {| status := 200; text := "OK" |})
          :: mid ++ [ETaskDone (fst (handle_call env data w'))].
Proof.
  unfold serve. rewrite handle_req_parsed. unfold run_ready; simpl.
  rewrite fold_left_app; simpl.
  set (w1 := {| pcs := pcs w; ready := [];
                log := log w ++ [EResponse (Ok {| status := 200; text := "OK" |})] |}).
  destruct (run_tasks_log env (ready w) w1) as [n1 Hn1].
  set (w2 := fold_left (fun w' t => run_task env t w') (ready w) w1) in *.
  destruct (handle_call_log env data w2) as [n2 Hn2].
  exists w2, (n1 ++ n2).
  destruct (handle_call env data w2) as [r w3]; simpl in *.
  rewrite Hn2, Hn1. subst w1; simpl. rewrite <- !app_assoc. reflexivity.
Qed.

(** C6. For a payload that carries id, event and session.sdp the handler
    returns 200 with body OK and leaves the coordinator run scheduled, not
    started; whatever the collaborators then do, the served request's
    history has that response before the end of the run. *)
Theorem C6_ok_before_run_completes (env : Env) (data : json) (w : World) :
  structurally_valid data = true ->
  handle_req {| req_json := Ok data |} w =
    (Ok {| status := 200; text := "OK" |},
     {| pcs := pcs w; ready := ready w ++ [TaskHandleCall data]; log := log w |}) /\
  exists w' mid,
    log (serve env {| req_json := Ok data |} w) =
    log w ++ EResponse (Ok {| status := 200; text := "OK" |})
          :: mid ++ [ETaskDone (fst (handle_call env data w'))].
Proof.
  intros _. split; [apply handle_req_parsed | apply serve_timeline].
Qed.

Lemma C6_ok_before_run_completes_witness :
  structurally_valid call0 = true /\
  handle_req {| req_json := Ok call0 |} W0 =
    (Ok {| status := 200; text := "OK" |},
     {| pcs := pcs W0; ready := ready W0 ++ [TaskHandleCall call0]; log := log W0 |}) /\
  exists w' mid,
    log (serve env_unreachable {| req_json := Ok call0 |} W0) =
    log W0 ++ EResponse (Ok {| status := 200; text := "OK" |})
           :: mid ++ [ETaskDone (fst (handle_call env_unreachable call0 w'))].
Proof.
  split; [reflexivity|].
  apply (C6_ok_before_run_completes env_unreachable call0 W0). reflexivity.
Defined.

Lemma not_valid_not_connect (data cid offer_sdp : json) :
  structurally_valid data = false -> ~ connect_event data cid offer_sdp.
Proof.
  unfold structurally_valid. intros H (H1 & H2 & H3).
  rewrite H1, H2, H3 in H. discriminate.
Qed.

(** C9. For a payload that lacks id, event or session.sdp the handler still
    returns 200 with body OK.  The scheduled run then touches nothing: it
    either raises the field-access error (always so when id or event is the
    missing field, or when the event is connect) or, the event being present
    and not connect, returns before reading session.sdp.  On an idle loop
    the history of the served request is the OK response followed by the end
    of the task, which alone carries the error. *)
Theorem C9_missing_field_invisible (env : Env) (data : json) (w : World) :
  structurally_valid data = false ->
  handle_req {| req_json := Ok data |} w =
    (Ok {| status := 200; text := "OK" |},
     {| pcs := pcs w; ready := ready w ++ [TaskHandleCall data]; log := log w |}) /\
  (exists out,
      handle_call env data w = (out, w) /\
      (out = Ok (web_Response "ignored") \/ exists e, out = Raise e /\ is_lookup_error e) /\
      (is_raise (getitem data "id") = true \/
       is_raise (getitem data "event") = true \/
       getitem data "event" = Ok (JStr "connect") ->
       exists e, out = Raise e /\ is_lookup_error e)) /\
  (ready w = [] ->
   log (serve env {| req_json := Ok data |} w) =
   log w ++ [EResponse (Ok {| status := 200; text := "OK" |});
             ETaskDone (fst (handle_call env data w))]).
Proof.
  intros Hv. split; [apply handle_req_parsed|].
  assert (Hcall : exists out,
      handle_call env data w = (out, w) /\
      (out = Ok (web_Response "ignored") \/ exists e, out = Raise e /\ is_lookup_error e) /\
      (is_raise (getitem data "id") = true \/
       is_raise (getitem data "event") = true \/
       getitem data "event" = Ok (JStr "connect") ->
       exists e, out = Raise e /\ is_lookup_error e)).
  { destruct (getitem data "id") as [cid|e] eqn:Hid.
    2:{ exists (Raise e). rewrite (handle_call_no_id env data w e Hid).
        pose proof (getitem_raises _ _ _ Hid). eauto 8. }
    destruct (getitem data "event") as [ev|e] eqn:Hev.
    2:{ exists (Raise e). rewrite (handle_call_no_event env data w cid e Hid Hev).
        pose proof (getitem_raises _ _ _ Hev). eauto 8. }
    destruct (eq_str ev "connect") eqn:Hc.
    - apply eq_str_true in Hc. subst ev.
      destruct (session_sdp data) as [o|e] eqn:Hsdp.
      + exfalso. unfold structurally_valid in Hv. rewrite Hid, Hev, Hsdp in Hv.
        discriminate.
      + exists (Raise e). rewrite (handle_call_no_sdp env data w cid e Hid Hev Hsdp).
        pose proof (session_sdp_raises _ _ Hsdp). eauto 8.
    - assert (Hne : ev <> JStr "connect").
      { intros ->. simpl in Hc. discriminate. }
      exists (Ok (web_Response "ignored")).
      rewrite (handle_call_ignored env data w cid ev Hid Hev Hne).
      split; [reflexivity|]. split; [auto|].
      intros [H | [H | H]]; try discriminate.
      injection H as ->. contradiction. }
  split; [exact Hcall|].
  intros Hq. destruct Hcall as (out & Hout & _).
  unfold serve. rewrite handle_req_parsed. unfold run_ready; simpl.
  rewrite Hq; simpl.
  assert (Hsame : handle_call env data
            {| pcs := pcs w; ready := [];
               log := log w ++ [EResponse (Ok {| status := 200; text := "OK" |})] |}
          = (out, {| pcs := pcs w; ready := [];
               log := log w ++ [EResponse (Ok {| status := 200; text := "OK" |})] |})).
  { clear Hq. revert Hout. unfold handle_call, bind, lift.
    destruct (getitem data "id") as [cid|e] eqn:Hid; [|intros [= <-]; reflexivity].
    destruct (getitem data "event") as [ev|e] eqn:Hev; [|intros [= <-]; reflexivity].
    destruct (eq_str ev "connect") eqn:Hc; simpl; [|intros [= <-]; reflexivity].
    apply eq_str_true in Hc. subst ev.
    destruct (getitem data "session") as [s|e] eqn:Hs; simpl;
      [|intros [= <-]; reflexivity].
    destruct (getitem s "sdp") as [o|e] eqn:Ho; simpl; [|intros [= <-]; reflexivity].
    exfalso. unfold structurally_valid, session_sdp in Hv.
    rewrite Hid, Hev, Hs, Ho in Hv. discriminate. }
  rewrite Hsame, Hout; simpl. rewrite <- app_assoc. reflexivity.
Qed.

Lemma C9_missing_field_invisible_witness :
  structurally_valid (JDict [("event", JStr "connect")]) = false /\
  fst (handle_req {| req_json := Ok (JDict [("event", JStr "connect")]) |} W0) =
    Ok {| status := 200; text := "OK" |} /\
  log (serve env_ok {| req_json := Ok (JDict [("event", JStr "connect")]) |} W0) =
    [EResponse (Ok {| status := 200; text := "OK" |});
     ETaskDone (Raise (KeyError "id"))].
Proof.
  split; [reflexivity|].
  destruct (C9_missing_field_invisible env_ok (JDict [("event", JStr "connect")]) W0
              eq_refl) as (Hreq & _ & Hlog).
  split.
  - rewrite Hreq. reflexivity.
  - exact (Hlog eq_refl).
Defined.

(** ** Events other than connect *)

(** C2, as stated, does not hold: for a ringing event the HTTP caller is
    answered OK, not ignored, and a [handle_call] task is scheduled. *)
Lemma C2_ringing_is_answered_OK :
  fst (handle_req {| req_json := Ok ringing0 |} W0) = Ok (web_Response "OK") /\
  fst (handle_req {| req_json := Ok ringing0 |} W0) <> Ok (web_Response "ignored") /\
  ready (snd (handle_req {| req_json := Ok ringing0 |} W0)) = [TaskHandleCall ringing0].
Proof. repeat split. discriminate. Qed.

(** C2, amended. For a payload with an id and an event other than connect,
    the handler answers 200 OK and schedules one [handle_call] task; that
    task returns the ignored response, which goes nowhere, and leaves the
    world exactly as it found it: no connection, no synthesis, no post. *)
Theorem C2_non_connect_is_inert (env : Env) (data cid ev : json) (w : World) :
  getitem data "id" = Ok cid ->
  getitem data "event" = Ok ev ->
  ev <> JStr "connect" ->
  handle_req {| req_json := Ok data |} w =
    (Ok {| status := 200; text := "OK" |},
     {| pcs := pcs w; ready := ready w ++ [TaskHandleCall data]; log := log w |}) /\
  handle_call env data w = (Ok (web_Response "ignored"), w) /\
  forall ss, session env data ss w = w.
Proof.
  intros Hid Hev Hne. split; [apply handle_req_parsed|].
  pose proof (handle_call_ignored env data w cid ev Hid Hev Hne) as Hcall.
  split; [exact Hcall|].
  intros ss. unfold session. rewrite Hcall; simpl.
  apply ice_changes_no_pc. apply lookup_ge_None. lia.
Qed.

Lemma C2_non_connect_is_inert_witness :
  getitem ringing0 "id" = Ok (JStr "C1") /\
  getitem ringing0 "event" = Ok (JStr "ringing") /\
  JStr "ringing" <> JStr "connect" /\
  handle_req {| req_json := Ok ringing0 |} W0 =
    (Ok {| status := 200; text := "OK" |},
     {| pcs := pcs W0; ready := ready W0 ++ [TaskHandleCall ringing0]; log := log W0 |}) /\
  handle_call env_ok ringing0 W0 = (Ok (web_Response "ignored"), W0) /\
  forall ss, session env_ok ringing0 ss W0 = W0.
Proof.
  assert (Hne : JStr "ringing" <> JStr "connect") by discriminate.
  split; [reflexivity|]. split; [reflexivity|]. split; [exact Hne|].
  exact (C2_non_connect_is_inert env_ok ringing0 (JStr "C1") (JStr "ringing") W0
           eq_refl eq_refl Hne).
Defined.

(** ** A failed pre-accept post *)

(** C8, as stated, does not hold: when the pre-accept post raises, the run
    ends there, no listener is ever attached to the connection, and a later
    connected notification is met with nothing. *)
Lemma C8_unreachable_platform_no_reaction :
  fst (handle_call env_unreachable call0 W0) = Raise (ConnectionError "unreachable") /\
  listeners <$> (pcs (snd (handle_call env_unreachable call0 W0)) !! 0%nat) = Some [] /\
  sent "accept" (log (session env_unreachable call0 ["connected"] W0)) = 0%nat /\
  log (session env_unreachable call0 ["connected"] W0)
    = log (snd (handle_call env_unreachable call0 W0)).
Proof. vm_compute. repeat split. Qed.

(** C8, amended. Once negotiation is through, the fate of the pre-accept
    post decides the rest.  If a reply comes back, whatever its status, the
    run takes no notice of it, returns normally with the watch registered,
    and a later connected notification posts the accept.  If the post raises,
    the run ends with that exception; the connection is left as negotiated
    (its track and descriptions in place, never closed) but without any
    listener, so whatever connectivity changes follow, nothing more is
    posted. *)
Theorem C8_after_the_pre_accept_post (env : Env) (call cid offer_sdp : json)
    (audio track : string) (d : RTCSessionDescription) (w : World) :
  connect_event call cid offer_sdp ->
  synthesis_ok env audio ->
  playback_ok env track ->
  negotiation_ok env offer_sdp d ->
  let pre := signaling_request env cid "pre_accept" (sdp d) in
  let acc := signaling_request env cid "accept" (sdp d) in
  let t := length (log w ++ tts_effects audio) in
  (forall k, post env t pre = Ok k ->
     handle_call env call w =
       (Ok (web_Response "TTS sent"),
        {| pcs := pcs w ++ [negotiated_pc track offer_sdp d [watch cid]];
           ready := ready w;
           log := log w ++ tts_effects audio ++ [EPost pre (Ok k)] |}) /\
     session env call ["connected"] w =
       {| pcs := pcs w ++ [with_ice "connected"
                             (negotiated_pc track offer_sdp d [watch cid])];
          ready := ready w;
          log := log w ++ tts_effects audio ++
                 [EPost pre (Ok k); EPost acc (post env (S t) acc)] |}) /\
  (forall e, post env t pre = Raise e ->
     handle_call env call w =
       (Raise e,
        {| pcs := pcs w ++ [negotiated_pc track offer_sdp d []];
           ready := ready w;
           log := log w ++ tts_effects audio ++ [EPost pre (Raise e)] |}) /\
     forall ss, exists s',
       session env call ss w =
       {| pcs := pcs w ++ [with_ice s' (negotiated_pc track offer_sdp d [])];
          ready := ready w;
          log := log w ++ tts_effects audio ++ [EPost pre (Raise e)] |}).
Proof.
  intros Hc Hs Hb Hn pre acc t.
  pose proof (handle_call_negotiated env call w cid offer_sdp audio track d Hc Hs Hb Hn)
    as Hrun.
  fold pre in Hrun. fold t in Hrun.
  split.
  - intros k Hk. rewrite Hk in Hrun. split; [exact Hrun|].
    unfold session, ice_changes. rewrite Hrun; simpl.
    rewrite (ice_change_connected env (length (pcs w)) _
               (negotiated_pc track offer_sdp d [watch cid]) cid d);
      simpl; [| apply lookup_fresh | reflexivity | reflexivity].
    rewrite alter_fresh. fold acc.
    assert (Ht : length (log w ++ tts_effects audio ++ [EPost pre (Ok k)]) = S t).
    { subst t. rewrite !length_app. simpl. lia. }
    simpl in Ht. rewrite Ht, <- app_assoc. reflexivity.
  - intros e He. rewrite He in Hrun. split; [exact Hrun|].
    intros ss. unfold session. rewrite Hrun; simpl.
    apply ice_changes_unwatched. reflexivity.
Qed.

Lemma C8_after_the_pre_accept_post_witness :
  connect_event call0 (JStr "C1") (JStr "OFFER_X") /\
  synthesis_ok env_rejected "RIFF" /\
  playback_ok env_rejected "audio" /\
  negotiation_ok env_rejected (JStr "OFFER_X") answer_y /\
  signaling_failed (post env_rejected 2 (signaling_request env_rejected (JStr "C1")
                                           "pre_accept" (JStr "ANSWER_Y"))) = true /\
  fst (handle_call env_rejected call0 W0) = Ok (web_Response "TTS sent") /\
  sent "accept" (log (session env_rejected call0 ["connected"] W0)) = 1%nat.
Proof.
  assert (Hc : connect_event call0 (JStr "C1") (JStr "OFFER_X"))
    by (repeat split; reflexivity).
  assert (Hs : synthesis_ok env_rejected "RIFF") by (repeat split; reflexivity).
  assert (Hb : playback_ok env_rejected "audio") by (repeat split; reflexivity).
  assert (Hn : negotiation_ok env_rejected (JStr "OFFER_X") answer_y).
  { split; [reflexivity|]. exists answer_y. split; reflexivity. }
  split; [exact Hc|]. split; [exact Hs|]. split; [exact Hb|]. split; [exact Hn|].
  split; [reflexivity|].
  destruct (C8_after_the_pre_accept_post env_rejected call0 (JStr "C1") (JStr "OFFER_X")
              "RIFF" "audio" answer_y W0 Hc Hs Hb Hn) as [Hok _].
  destruct (Hok 401 eq_refl) as [Hrun Hsess].
  split.
  - rewrite Hrun. reflexivity.
  - rewrite Hsess. reflexivity.
Defined.

(** * Further properties of the module *)

(** ** generate_tts *)

(** X1. [generate_tts] asks for the fixed greeting (en-US, NEUTRAL,
    LINEAR16); when it returns, it returns /tmp/welcome.wav and has stored
    there exactly the audio the synthesizer gave back.  It never posts,
    never touches a connection and schedules nothing, and when the client
    cannot be created no synthesis is requested at all. *)
Theorem X1_generate_tts_outcome (env : Env) (w : World) :
  exists new,
    snd (generate_tts env w) =
      {| pcs := pcs w; ready := ready w; log := log w ++ new |} /\
    posts new = [] /\
    (forall path, fst (generate_tts env w) = Ok path ->
       path = "/tmp/welcome.wav" /\
       exists audio,
         synthesize_speech env
           {| input_text := greeting; language_code := "en-US";
              ssml_gender := "NEUTRAL"; audio_encoding := "LINEAR16" |} = Ok audio /\
         new = [ESynthesize greeting_request; EWriteFile "/tmp/welcome.wav" audio]) /\
    (is_raise (tts_client env) = true -> new = []).
Proof.
  unfold generate_tts, bind, lift, emit, ret. fold greeting_request.
  destruct (tts_client env) as [[]|e] eqn:Hc; simpl.
  { destruct (synthesize_speech env greeting_request) as [audio|e] eqn:Hs; simpl.
    - destruct (write_file env "/tmp/welcome.wav" audio) as [[]|e] eqn:Hw; simpl.
      + exists [ESynthesize greeting_request; EWriteFile "/tmp/welcome.wav" audio].
        rewrite <- app_assoc. split; [reflexivity|]. split; [reflexivity|].
        split; [|discriminate].
        intros path [= <-]. split; [reflexivity|]. exists audio. split; reflexivity.
      + exists [ESynthesize greeting_request].
        repeat split; discriminate.
    - exists [ESynthesize greeting_request].
      repeat split; discriminate. }
  exists []. rewrite app_nil_r. destruct w; simpl.
  repeat split; discriminate.
Qed.

(** ** handle_req on a body that is not JSON *)

(** X2. When [req.json()] raises, [handle_req] raises the same exception:
    no task is created, and serving the request on an idle loop leaves
    nothing behind but the failed handler -- no coordinator run, no
    connection, no post. *)
Theorem X2_bad_json_starts_nothing (env : Env) (req : Request) (e : exn) (w : World) :
  req_json req = Raise e ->
  handle_req req w = (Raise e, w) /\
  (ready w = [] ->
   serve env req w =
   {| pcs := pcs w; ready := []; log := log w ++ [EResponse (Raise e)] |}).
Proof.
  intros H. assert (Hr : handle_req req w = (Raise e, w)).
  { unfold handle_req, bind, lift. now rewrite H. }
  split; [exact Hr|].
  intros Hq. unfold serve. rewrite Hr. unfold run_ready; simpl. now rewrite Hq.
Qed.

Lemma X2_bad_json_starts_nothing_witness :
  req_json {| req_json := Raise JSONDecodeError |} = Raise JSONDecodeError /\
  handle_req {| req_json := Raise JSONDecodeError |} W0 = (Raise JSONDecodeError, W0) /\
  serve env_ok {| req_json := Raise JSONDecodeError |} W0 =
    {| pcs := []; ready := []; log := [EResponse (Raise JSONDecodeError)] |}.
Proof.
  split; [reflexivity|].
  destruct (X2_bad_json_starts_nothing env_ok {| req_json := Raise JSONDecodeError |}
              JSONDecodeError W0 eq_refl) as [Hreq Hserve].
  split; [exact Hreq|]. exact (Hserve eq_refl).
Defined.

(** ** What a run posts, and when *)

Lemma is_connect_event_true (call : json) :
  is_connect_event call = true <-> exists cid offer_sdp, connect_event call cid offer_sdp.
Proof.
  unfold is_connect_event, connect_event. split.
  - destruct (getitem call "id") as [cid|]; simpl; [|discriminate].
    destruct (getitem call "event") as [ev|]; simpl; [|discriminate].
    destruct (eq_str ev "connect") eqn:E; simpl; [|discriminate].
    apply eq_str_true in E. subst ev.
    destruct (session_sdp call) as [o|]; simpl; [|discriminate].
    intros _. exists cid, o. auto.
  - intros (cid & o & -> & -> & ->). reflexivity.
Qed.

(** X4. A run posts something exactly when the payload is a connect event
    with all its fields and synthesis, playback and all three negotiation
    steps succeed: whenever that holds the run posts the single pre-accept
    (whether or not a reply comes), and whenever anything was posted, that
    held. *)
Theorem X4_posts_iff_negotiated (env : Env) (call : json) (w : World) :
  exists new,
    log (snd (handle_call env call w)) = log w ++ new /\
    (posts new <> [] ->
     exists cid offer_sdp audio track d,
       connect_event call cid offer_sdp /\
       synthesis_ok env audio /\
       playback_ok env track /\
       negotiation_ok env offer_sdp d) /\
    (forall cid offer_sdp audio track d,
       connect_event call cid offer_sdp ->
       synthesis_ok env audio ->
       playback_ok env track ->
       negotiation_ok env offer_sdp d ->
       posts new = [signaling_request env cid "pre_accept" (sdp d)]).
Proof.
  destruct (handle_call_log env call w) as [new Hnew].
  exists new. split; [exact Hnew|]. split.
  - intros Hne.
    destruct (handle_call_shape env call w)
      as [r _ _ | e c pre _ Hp | cid o audio track d e Hc Hs Hb Hg _
          | cid o audio track d k Hc Hs Hb Hg _]; simpl in Hnew.
    + exfalso. apply Hne.
      rewrite <- (app_nil_r (log w)) in Hnew at 1.
      apply app_inv_head in Hnew. now subst new.
    + exfalso. apply Hne. apply app_inv_head in Hnew. now subst new.
    + exists cid, o, audio, track, d. auto.
    + exists cid, o, audio, track, d. auto.
  - intros cid o audio track d Hc Hs Hb Hg.
    rewrite (handle_call_negotiated env call w cid o audio track d Hc Hs Hb Hg) in Hnew.
    destruct (post env (length (log w ++ tts_effects audio))
                (signaling_request env cid "pre_accept" (sdp d)));
      simpl in Hnew; apply app_inv_head in Hnew; subst new; reflexivity.
Qed.

(** X8. The greeting is synthesized and stored before the offer is looked
    at: on a connect event whose negotiation fails, with synthesis and
    playback in order, the run raises having left exactly the synthesis
    request and the file write behind, and no later connectivity change adds
    to that. *)
Theorem X8_synthesis_precedes_negotiation (env : Env) (call cid offer_sdp : json)
    (audio track : string) (ss : list string) (w : World) :
  connect_event call cid offer_sdp ->
  synthesis_ok env audio ->
  playback_ok env track ->
  negotiation_fails env offer_sdp ->
  (exists e, fst (handle_call env call w) = Raise e) /\
  log (session env call ss w) =
    log w ++ [ESynthesize greeting_request; EWriteFile "/tmp/welcome.wav" audio].
Proof.
  intros (Hid & Hev & Hsdp) (Ht1 & Ht2 & Ht3) (Hmp & Hat) Hfail.
  unfold session_sdp in Hsdp.
  destruct (getitem call "session") as [s|] eqn:Hs; [|discriminate].
  assert (Hrun : exists e c,
    listeners c = [] /\
    handle_call env call w =
    (Raise e, {| pcs := pcs w ++ [c]; ready := ready w;
                 log := log w ++ tts_effects audio |})).
  { unfold handle_call, bind, lift. rewrite Hid, Hev; simpl. rewrite Hs, Hsdp; simpl.
    unfold generate_tts, bind, lift, emit, ret. fold greeting_request.
    rewrite Ht1; simpl. rewrite Ht2; simpl. rewrite Ht3; simpl. rewrite Hmp; simpl.
    unfold addTrack, bind, lift. rewrite Hat; simpl. rewrite alter_fresh.
    rewrite <- app_assoc; simpl. fold (tts_effects audio).
    unfold setRemoteDescription, bind, lift. fold (offer_of offer_sdp).
    destruct (set_remote_description env (offer_of offer_sdp)) as [[]|e] eqn:Hsr; simpl.
    2:{ eexists e, _. split; [|reflexivity]. reflexivity. }
    rewrite alter_fresh.
    unfold createAnswer, bind, lift, pc_read; simpl. rewrite lookup_fresh; simpl.
    destruct (create_answer env (offer_of offer_sdp)) as [answer|e] eqn:Hca; simpl.
    2:{ eexists e, _. split; [|reflexivity]. reflexivity. }
    unfold setLocalDescription, bind, lift.
    destruct (set_local_description env answer) as [d|e] eqn:Hsl; simpl.
    2:{ eexists e, _. split; [|reflexivity]. reflexivity. }
    exfalso. destruct Hfail as [H | [H | (a' & Ha' & H)]].
    - rewrite Hsr in H. discriminate.
    - rewrite Hca in H. discriminate.
    - rewrite Hca in Ha'. injection Ha' as <-. rewrite Hsl in H. discriminate. }
  destruct Hrun as (e & c & Hl & Hrun).
  split; [exists e; now rewrite Hrun|].
  unfold session. rewrite Hrun; simpl.
  destruct (ice_changes_unwatched env ss (pcs w) c (ready w)
              (log w ++ tts_effects audio) Hl) as [s' ->].
  reflexivity.
Qed.

Lemma X8_synthesis_precedes_negotiation_witness :
  connect_event call0 (JStr "C1") (JStr "OFFER_X") /\
  synthesis_ok env_bad_offer "RIFF" /\
  playback_ok env_bad_offer "audio" /\
  negotiation_fails env_bad_offer (JStr "OFFER_X") /\
  (exists e, fst (handle_call env_bad_offer call0 W0) = Raise e) /\
  log (session env_bad_offer call0 ["connected"] W0) =
    log W0 ++ [ESynthesize greeting_request; EWriteFile "/tmp/welcome.wav" "RIFF"].
Proof.
  assert (Hc : connect_event call0 (JStr "C1") (JStr "OFFER_X"))
    by (repeat split; reflexivity).
  assert (Hs : synthesis_ok env_bad_offer "RIFF") by (repeat split; reflexivity).
  assert (Hb : playback_ok env_bad_offer "audio") by (repeat split; reflexivity).
  assert (Hn : negotiation_fails env_bad_offer (JStr "OFFER_X"))
    by (right; left; reflexivity).
  split; [exact Hc|]. split; [exact Hs|]. split; [exact Hb|]. split; [exact Hn|].
  exact (X8_synthesis_precedes_negotiation env_bad_offer call0 (JStr "C1")
           (JStr "OFFER_X") "RIFF" "audio" ["connected"] W0 Hc Hs Hb Hn).
Defined.

(** ** What a call does to the store *)

Lemma handle_call_not_connect (env : Env) (call : json) (w : World) :
  is_connect_event call = false -> snd (handle_call env call w) = w.
Proof.
  unfold is_connect_event, session_sdp, handle_call, bind, lift.
  destruct (getitem call "id") as [cid|]; simpl; [|reflexivity].
  destruct (getitem call "event") as [ev|]; simpl; [|reflexivity].
  destruct (eq_str ev "connect"); simpl; [|reflexivity].
  destruct (getitem call "session") as [s|]; simpl; [|reflexivity].
  destruct (getitem s "sdp") as [o|]; simpl; [discriminate|reflexivity].
Qed.

(** X5. A call (the run and the connectivity changes of its connection)
    adds exactly one connection to the store when the payload is a connect
    event with its fields, whether or not the run then succeeds, and none
    otherwise.  It never alters or removes a connection that was there
    before, and it schedules nothing. *)
Theorem X5_one_connection_per_connect_event (env : Env) (call : json)
    (ss : list string) (w : World) :
  exists added,
    pcs (session env call ss w) = pcs w ++ added /\
    length added = (if is_connect_event call then 1 else 0)%nat /\
    ready (session env call ss w) = ready w.
Proof.
  unfold session.
  destruct (is_connect_event call) eqn:E.
  - apply is_connect_event_true in E. destruct E as (cid0 & o0 & Hc0).
    destruct (handle_call_shape env call w)
      as [r Hn _ | e c pre Hl _ | cid o audio track d e _ _ _ _ _
          | cid o audio track d k _ _ _ _ _].
    + exfalso. exact (Hn cid0 o0 Hc0).
    + destruct (ice_changes_unwatched env ss (pcs w) c (ready w) (log w ++ pre) Hl)
        as [s' ->]. simpl. eauto.
    + destruct (ice_changes_unwatched env ss (pcs w) (negotiated_pc track o d [])
                  (ready w)
                  (log w ++ tts_effects audio ++
                   [EPost (signaling_request env cid "pre_accept" (sdp d)) (Raise e)])
                  eq_refl) as [s' ->]. simpl. eauto.
    + destruct (ice_changes_watching env ss (pcs w)
                  (negotiated_pc track o d [watch cid]) (ready w)
                  (log w ++ tts_effects audio ++
                   [EPost (signaling_request env cid "pre_accept" (sdp d)) (Ok k)])
                  cid d eq_refl eq_refl) as (s' & acc & -> & _). simpl. eauto.
  - rewrite handle_call_not_connect by exact E.
    rewrite ice_changes_no_pc by (apply lookup_ge_None; lia).
    exists []. rewrite app_nil_r. auto.
Qed.

(** ** What a connectivity change can post *)

Lemma closure_log (env : Env) (r : nat) (cid : json) (w : World) :
  exists new,
    log (snd (on_iceconnectionstatechange env r cid w)) = log w ++ new /\
    (new = [] \/
     exists d res, new = [EPost (signaling_request env cid "accept" (sdp d)) res]).
Proof.
  unfold on_iceconnectionstatechange, bind, pc_read, localDescription_sdp.
  destruct (pcs w !! r) as [c|] eqn:Hc; simpl.
  2:{ exists []. rewrite app_nil_r. auto. }
  destruct (String.eqb (iceConnectionState c) "connected"); simpl.
  2:{ exists []. rewrite app_nil_r. auto. }
  unfold bind, pc_read. rewrite Hc.
  destruct (localDescription c) as [d|]; simpl.
  2:{ exists []. rewrite app_nil_r. auto. }
  unfold requests_post. fold (signaling_request env cid "accept" (sdp d)).
  destruct (post env (length (log w)) (signaling_request env cid "accept" (sdp d)))
    as [k|e] eqn:Hp; simpl; eexists; (split; [reflexivity|]); right; eauto.
Qed.

Lemma listeners_log (env : Env) (r : nat) (ls : list Listener) (w : World) :
  exists new,
    log (fold_left (fun w' l => run_listener env r ICE_EVENT l w') ls w) = log w ++ new /\
    (length (posts new) <= length ls)%nat /\
    forall p, In p (posts new) ->
      exists l d, In l ls /\ p = signaling_request env (l_call_id l) "accept" (sdp d).
Proof.
  revert w. induction ls as [|l ls IH]; intros w; simpl.
  - exists []. rewrite app_nil_r. split; [reflexivity|]. split; [simpl; lia|].
    intros p [].
  - destruct (IH (run_listener env r ICE_EVENT l w)) as (n2 & -> & Hlen & Hall).
    assert (Hone : exists n1,
               log (run_listener env r ICE_EVENT l w) = log w ++ n1 /\
               (n1 = [] \/ exists d res,
                   n1 = [EPost (signaling_request env (l_call_id l) "accept" (sdp d)) res])).
    { unfold run_listener. destruct (String.eqb (l_event l) ICE_EVENT).
      - apply closure_log.
      - exists []. rewrite app_nil_r. auto. }
    destruct Hone as (n1 & -> & Hn1).
    exists (n1 ++ n2). rewrite <- app_assoc. split; [reflexivity|].
    rewrite posts_app, length_app.
    destruct Hn1 as [-> | (d & res & ->)]; simpl.
    + split; [lia|]. intros p Hp. destruct (Hall p Hp) as (l' & d & Hin & ->). eauto.
    + split; [lia|]. intros p [<- | Hp]; [eauto|].
      destruct (Hall p Hp) as (l' & d' & Hin & ->). eauto.
Qed.

Lemma ice_change_log (env : Env) (r : nat) (s : string) (w : World) :
  exists new,
    log (ice_change env r s w) = log w ++ new /\
    forall p, In p (posts new) ->
      exists c l d,
        pcs w !! r = Some c /\ In l (listeners c) /\
        (length (posts new) <= length (listeners c))%nat /\
        p = signaling_request env (l_call_id l) "accept" (sdp d).
Proof.
  unfold ice_change, pc_update; simpl. rewrite lookup_alter_same.
  destruct (pcs w !! r) as [c|]; simpl.
  - destruct (listeners_log env r (listeners c)
                {| pcs := alter (with_ice s) r (pcs w); ready := ready w; log := log w |})
      as (new & Hlog & Hlen & Hall).
    exists new. split; [exact Hlog|].
    intros p Hp. destruct (Hall p Hp) as (l & d & Hin & ->).
    exists c, l, d. auto.
  - exists []. rewrite app_nil_r. split; [reflexivity|]. intros p [].
Qed.

(** X9. A connectivity change on one connection is local to it: every
    other connection is left as it was, nothing is scheduled, and whatever
    is posted is an accept (POST to the calls URL with the bearer header)
    for a call_id whose closure is attached to that very connection. *)
Theorem X9_change_is_local (env : Env) (pc : nat) (s : string) (w : World) :
  (forall other, other <> pc ->
     pcs (ice_change env pc s w) !! other = pcs w !! other) /\
  ready (ice_change env pc s w) = ready w /\
  exists new,
    log (ice_change env pc s w) = log w ++ new /\
    forall p, In p (posts new) ->
      has_action "accept" p = true /\
      url p = calls_url env /\
      headers p = auth_headers env /\
      exists c l,
        pcs w !! pc = Some c /\ In l (listeners c) /\
        call_id_of p = Some (l_call_id l).
Proof.
  destruct (ice_change_store env pc s w) as [Hp Hr].
  split.
  { intros other Hne. rewrite Hp. apply list_lookup_alter_ne. congruence. }
  split; [exact Hr|].
  destruct (ice_change_log env pc s w) as (new & Hlog & Hall).
  exists new. split; [exact Hlog|].
  intros p Hin. destruct (Hall p Hin) as (c & l & d & Hc & Hl & _ & ->).
  repeat split. exists c, l. auto.
Qed.

(** ** One listener per connection *)

Lemma handle_call_single_watch (env : Env) (call : json) (w : World) :
  single_watch w -> single_watch (snd (handle_call env call w)).
Proof.
  unfold single_watch. intros H.
  destruct (handle_call_shape env call w) as [r _ _ | e c pre Hl _ | | ]; simpl;
    [exact H | | | ]; apply Forall_app; (split; [exact H|]);
    apply Forall_singleton; [rewrite Hl | | ]; simpl; lia.
Qed.

Lemma run_tasks_single_watch (env : Env) (q : list Task) (w : World) :
  single_watch w ->
  single_watch (fold_left (fun w' t => run_task env t w') q w).
Proof.
  revert w. induction q as [|[data] q IH]; intros w H; simpl; [exact H|].
  apply IH. unfold run_task.
  pose proof (handle_call_single_watch env data w H) as H'.
  destruct (handle_call env data w) as [r w']. exact H'.
Qed.

(** X6. That no connection carries more than one listener is kept by
    serving any request and by any connectivity change; and where it holds,
    one connectivity change posts at most one request. *)
Theorem X6_single_watch_invariant (env : Env) (w : World) :
  single_watch w ->
  (forall req, single_watch (serve env req w)) /\
  (forall pc s,
     single_watch (ice_change env pc s w) /\
     (length (posts (log (ice_change env pc s w))) <= S (length (posts (log w))))%nat).
Proof.
  intros H. split.
  - intros req. unfold serve, handle_req, bind, lift.
    destruct (req_json req) as [data|e]; simpl; unfold run_ready; simpl;
      apply run_tasks_single_watch; exact H.
  - intros pc s. split.
    + unfold single_watch. destruct (ice_change_store env pc s w) as [-> _].
      apply Forall_alter; [exact H|]. intros c _ Hc. exact Hc.
    + destruct (ice_change_log env pc s w) as (new & -> & Hall).
      rewrite posts_app, length_app.
      destruct (posts new) as [|p ps] eqn:Hp; simpl; [lia|].
      destruct (Hall p (or_introl eq_refl)) as (c & l & d & Hc & _ & Hlen & _).
      unfold single_watch in H.
      pose proof (proj1 (Forall_forall _ _) H c) as Hone.
      assert (Hin : c ∈ pcs w) by (apply list_elem_of_lookup; eauto).
      specialize (Hone Hin). simpl in Hone, Hlen. lia.
Qed.

Lemma X6_single_watch_invariant_witness :
  single_watch (snd (handle_call env_ok call0 W0)) /\
  (forall req, single_watch (serve env_ok req (snd (handle_call env_ok call0 W0)))) /\
  (forall pc s,
     single_watch (ice_change env_ok pc s (snd (handle_call env_ok call0 W0))) /\
     (length (posts (log (ice_change env_ok pc s (snd (handle_call env_ok call0 W0)))))
      <= S (length (posts (log (snd (handle_call env_ok call0 W0))))))%nat).
Proof.
  assert (H : single_watch (snd (handle_call env_ok call0 W0))).
  { unfold single_watch. simpl. constructor; [simpl; lia | constructor]. }
  split; [exact H|].
  exact (X6_single_watch_invariant env_ok (snd (handle_call env_ok call0 W0)) H).
Defined.

(** ** The same call twice *)

Lemma serve_connect (env : Env) (data cid offer_sdp : json) (audio track : string)
    (d : RTCSessionDescription) (w : World) :
  ready w = [] ->
  connect_event data cid offer_sdp ->
  synthesis_ok env audio ->
  playback_ok env track ->
  negotiation_ok env offer_sdp d ->
  exists c r out,
    serve env {| req_json := Ok data |} w =
    {| pcs := pcs w ++ [c]; ready := [];
       log := log w ++
              EResponse (Ok (web_Response "OK")) :: tts_effects audio ++
              [EPost (signaling_request env cid "pre_accept" (sdp d)) r;
               ETaskDone out] |}.
Proof.
  intros Hq Hc Hs Hb Hg. unfold serve. rewrite handle_req_parsed.
  unfold run_ready; simpl. rewrite Hq; simpl.
  rewrite (handle_call_negotiated env data _ cid offer_sdp audio track d Hc Hs Hb Hg).
  simpl.
  destruct (post env _ (signaling_request env cid "pre_accept" (sdp d))) as [k|e];
    simpl; do 3 eexists; rewrite <- !app_assoc; simpl; reflexivity.
Qed.

(** X3. Nothing is remembered per call_id: on an idle loop, with all
    collaborators up to the post in order, serving the same connect payload
    twice runs the whole coordinator twice -- two connections, two synthesis
    requests for the greeting, two pre-accept posts, both for the same
    call_id. *)
Theorem X3_same_call_twice_runs_twice (env : Env) (data cid offer_sdp : json)
    (audio track : string) (d : RTCSessionDescription) (w : World) :
  ready w = [] ->
  connect_event data cid offer_sdp ->
  synthesis_ok env audio ->
  playback_ok env track ->
  negotiation_ok env offer_sdp d ->
  let req := {| req_json := Ok data |} in
  length (pcs (serve env req (serve env req w))) = (length (pcs w) + 2)%nat /\
  exists new,
    log (serve env req (serve env req w)) = log w ++ new /\
    synth_requests new = [greeting_request; greeting_request] /\
    posts new = [signaling_request env cid "pre_accept" (sdp d);
                 signaling_request env cid "pre_accept" (sdp d)].
Proof.
  intros Hq Hc Hs Hb Hg req. subst req.
  destruct (serve_connect env data cid offer_sdp audio track d w Hq Hc Hs Hb Hg)
    as (c1 & r1 & o1 & ->).
  match goal with
  | |- context [serve env _ ?w1] =>
      destruct (serve_connect env data cid offer_sdp audio track d w1 eq_refl Hc Hs Hb Hg)
        as (c2 & r2 & o2 & ->)
  end.
  simpl. split.
  - rewrite !length_app. simpl. lia.
  - eexists. rewrite <- app_assoc. split; [reflexivity|].
    split; reflexivity.
Qed.

Lemma X3_same_call_twice_runs_twice_witness :
  ready W0 = [] /\
  connect_event call0 (JStr "C1") (JStr "OFFER_X") /\
  synthesis_ok env_ok "RIFF" /\
  playback_ok env_ok "audio" /\
  negotiation_ok env_ok (JStr "OFFER_X") answer_y /\
  length (pcs (serve env_ok {| req_json := Ok call0 |}
                 (serve env_ok {| req_json := Ok call0 |} W0))) = 2%nat /\
  sent "pre_accept"
    (log (serve env_ok {| req_json := Ok call0 |}
            (serve env_ok {| req_json := Ok call0 |} W0))) = 2%nat.
Proof.
  assert (Hc : connect_event call0 (JStr "C1") (JStr "OFFER_X"))
    by (repeat split; reflexivity).
  assert (Hs : synthesis_ok env_ok "RIFF") by (repeat split; reflexivity).
  assert (Hb : playback_ok env_ok "audio") by (repeat split; reflexivity).
  assert (Hn : negotiation_ok env_ok (JStr "OFFER_X") answer_y).
  { split; [reflexivity|]. exists answer_y. split; reflexivity. }
  split; [reflexivity|].
  split; [exact Hc|]. split; [exact Hs|]. split; [exact Hb|]. split; [exact Hn|].
  destruct (X3_same_call_twice_runs_twice env_ok call0 (JStr "C1") (JStr "OFFER_X")
              "RIFF" "audio" answer_y W0 eq_refl Hc Hs Hb Hn) as [Hlen (new & Hlog & _ & Hposts)].
  split; [exact Hlen|].
  rewrite Hlog. unfold sent. rewrite posts_app, Hposts. reflexivity.
Defined.

(** ** Unset configuration *)

(** X7. The two environment variables are never checked.  With both unset,
    a call runs as it would otherwise, and everything it posts goes to
    https://graph.facebook.com/v20.0/None/calls with the header
    Authorization: Bearer None. *)
Theorem X7_unset_configuration_is_sent_as_None (env : Env) (call : json)
    (ss : list string) (w : World) :
  WHATSAPP_TOKEN env = None ->
  PHONE_NUMBER_ID env = None ->
  exists new,
    log (session env call ss w) = log w ++ new /\
    forall p, In p (posts new) ->
      url p = "https://graph.facebook.com/v20.0/None/calls" /\
      headers p = [("Authorization", "Bearer None")].
Proof.
  intros Htok Hid.
  assert (Hreq : forall cid a s,
             url (signaling_request env cid a s)
               = "https://graph.facebook.com/v20.0/None/calls" /\
             headers (signaling_request env cid a s) = [("Authorization", "Bearer None")]).
  { intros. unfold signaling_request, calls_url, auth_headers; simpl.
    rewrite Htok, Hid. split; reflexivity. }
  destruct (session_outcome env call ss w) as (new & Hlog & Hshape).
  exists new. split; [exact Hlog|].
  destruct Hshape
    as [r0 Hn _ | e pre Hp | cid o audio track d e Hc Hs Hb Hg _
        | cid o audio track d k acc Hc Hs Hb Hg _ Hall _].
  - intros p [].
  - rewrite Hp; intros p [].
  - simpl. intros p [<- | []]. apply Hreq.
  - simpl. intros p [<- | Hin]; [apply Hreq|].
    rewrite (posts_accepts env cid d acc p Hall Hin). apply Hreq.
Qed.

Lemma X7_unset_configuration_is_sent_as_None_witness :
  WHATSAPP_TOKEN env_unconfigured = None /\
  PHONE_NUMBER_ID env_unconfigured = None /\
  map url (posts (log (session env_unconfigured call0 ["connected"] W0))) =
    ["https://graph.facebook.com/v20.0/None/calls";
     "https://graph.facebook.com/v20.0/None/calls"] /\
  exists new,
    log (session env_unconfigured call0 ["connected"] W0) = log W0 ++ new /\
    forall p, In p (posts new) ->
      url p = "https://graph.facebook.com/v20.0/None/calls" /\
      headers p = [("Authorization", "Bearer None")].
Proof.
  split; [reflexivity|]. split; [reflexivity|]. split; [reflexivity|].
  exact (X7_unset_configuration_is_sent_as_None env_unconfigured call0 ["connected"] W0
           eq_refl eq_refl).
Defined.
